(** * A shallow embedding of the test-suite harness [test/test.py]

    The harness drives an external program over the test cases of named
    suites.  Its code is effectful throughout: it inspects and mutates the
    file system, writes to loggers and launches subprocesses.  We embed it
    as functions in a state-and-exception monad over a [world] that holds

    - the file system, a finite map from lexical paths to nodes, and
    - the chronological trace of every observable effect (log records,
      removals, directory creations, file writes, copies, subprocess
      launches).

    The target program and the TOML parser are external collaborators:
    they enter the development as the fields of an environment record,
    next to the directory the harness is installed in. *)

From stdpp Require Import gmap strings list fin_maps pretty.
From Stdlib Require Import ZArith Ascii String.
From Stdlib.Strings Require Import Byte.

Local Open Scope string_scope.
Local Open Scope list_scope.
Local Open Scope Z_scope.

(** ** Paths

    A [pathlib.Path] is kept as the list of its components below the root.
    Symbolic links and [..] are not resolved (neither does [pathlib] when it
    joins paths). *)

Abbreviation path := (list string).

(** [s.split("/")] *)
Fixpoint split_slash (s : string) : list string :=
  match s with
  | EmptyString => [EmptyString]
  | String c s' =>
      if Ascii.eqb c "/" then EmptyString :: split_slash s'
      else match split_slash s' with
           | [] => [String c EmptyString]
           | h :: t => String c h :: t
           end
  end.

Definition keep_part (c : string) : bool :=
  negb (String.eqb c "") && negb (String.eqb c ".").

(** The components [pathlib] keeps of a path string: empty components and
    [.] are dropped, [..] stays. *)
Definition parts (s : string) : path := List.filter keep_part (split_slash s).

Definition is_absolute (s : string) : bool :=
  match s with
  | String c _ => Ascii.eqb c "/"
  | EmptyString => false
  end.

(** [p / s] for a path [p] and a string [s] *)
Definition pjoin (p : path) (s : string) : path :=
  if is_absolute s then parts s else p ++ parts s.

(** [str(p)] for an absolute path *)
Definition path_str (p : path) : string := "/" +:+ String.concat "/" p.

(** [p.parent] *)
Definition dirname (p : path) : path := removelast p.

(** [p.name] *)
Definition name (p : path) : string := List.last p "".

(** [n.rfind(".")], counted from [i] *)
Fixpoint rfind_dot (n : string) (i : nat) : option nat :=
  match n with
  | EmptyString => None
  | String c n' =>
      match rfind_dot n' (S i) with
      | Some j => Some j
      | None => if Ascii.eqb c "." then Some i else None
      end
  end.

(** [p.stem]: the final component without its last suffix. *)
Definition stem (p : path) : string :=
  let n := name p in
  match rfind_dot n 0 with
  | Some i =>
      if (Nat.ltb 0 i && Nat.ltb i (String.length n - 1))%bool
      then String.substring 0 i n else n
  | None => n
  end.

(** ** The world: file system and effect trace *)

Abbreviation bytes := (list byte).

Inductive node :=
| File (data : bytes)
| Dir.

Inductive exn :=
| FileNotFoundError
| FileExistsError
| IsADirectoryError
| NotADirectoryError
| SameFileError
| TypeError
| TOMLDecodeError.

Inductive level := WARNING | INFO | ERROR.

Inductive event :=
| ELog (logger : string) (lvl : level) (msg : string)
| ERemove (p : path)
| ERmtree (p : path)
| EMkdir (p : path)
| EWrite (p : path) (data : bytes)
| ECopy (src dst : path)
| EExec (args : list string).

Record world := World { fs : gmap path node; trace : list event }.

Inductive outcome (A : Type) :=
| Ok (a : A) (w : world)
| Raise (e : exn) (w : world).
Arguments Ok {A} a w.
Arguments Raise {A} e w.

Definition M (A : Type) : Type := world -> outcome A.

Definition ret {A} (a : A) : M A := fun w => Ok a w.

Definition bind {A B} (m : M A) (k : A -> M B) : M B := fun w =>
  match m w with
  | Ok a w' => k a w'
  | Raise e w' => Raise e w'
  end.

Declare Scope M_scope.
Delimit Scope M_scope with M.
Bind Scope M_scope with M.
Notation "x <- m ;; k" := (bind m (fun x => k))
  (at level 100, m at next level, right associativity) : M_scope.
Notation "m ;; k" := (bind m (fun _ => k))
  (at level 100, k at level 200, right associativity) : M_scope.
Local Open Scope M_scope.

Definition raise {A} (e : exn) : M A := fun w => Raise e w.
Definition emit (e : event) : M unit :=
  fun w => Ok tt (World (fs w) (trace w ++ [e])).
Definition get_fs : M (gmap path node) := fun w => Ok (fs w) w.
Definition put_fs (m : gmap path node) : M unit :=
  fun w => Ok tt (World m (trace w)).
Definition when (b : bool) (m : M unit) : M unit := if b then m else ret tt.

(** *** File-system primitives *)

Definition isfile (m : gmap path node) (p : path) : bool :=
  match m !! p with Some (File _) => true | _ => false end.

Definition isdir (m : gmap path node) (p : path) : bool :=
  match m !! p with Some Dir => true | _ => false end.

(** [Path.is_file()] *)
Definition is_file (p : path) : M bool := m <- get_fs;; ret (isfile m p).

(** [Path.is_dir()], [os.path.isdir] *)
Definition is_dir (p : path) : M bool := m <- get_fs;; ret (isdir m p).

(** What [open] and [os.mkdir] raise when the entry cannot be created in
    its parent. *)
Definition parent_error (m : gmap path node) (p : path) : option exn :=
  match m !! dirname p with
  | Some Dir => None
  | Some (File _) => Some NotADirectoryError
  | None => Some FileNotFoundError
  end.

(** [os.remove] *)
Definition os_remove (p : path) : M unit :=
  m <- get_fs;;
  match m !! p with
  | Some (File _) => put_fs (delete p m);; emit (ERemove p)
  | Some Dir => raise IsADirectoryError
  | None => raise FileNotFoundError
  end.

(** [shutil.rmtree]: the directory goes with everything below it. *)
Definition shutil_rmtree (p : path) : M unit :=
  m <- get_fs;;
  match m !! p with
  | Some Dir =>
      put_fs (filter (fun kv => ¬ p `prefix_of` kv.1) m);; emit (ERmtree p)
  | Some (File _) => raise NotADirectoryError
  | None => raise FileNotFoundError
  end.

(** [os.mkdir] *)
Definition os_mkdir (p : path) : M unit :=
  m <- get_fs;;
  match m !! p with
  | Some _ => raise FileExistsError
  | None =>
      match parent_error m p with
      | Some e => raise e
      | None => put_fs (<[p := Dir]> m);; emit (EMkdir p)
      end
  end.

(** [with open(p, "wb") as f: f.write(data)] *)
Definition write_bytes (p : path) (data : bytes) : M unit :=
  m <- get_fs;;
  match m !! p with
  | Some Dir => raise IsADirectoryError
  | _ =>
      match parent_error m p with
      | Some e => raise e
      | None => put_fs (<[p := File data]> m);; emit (EWrite p data)
      end
  end.

(** [open(p, "a")], as [logging.FileHandler] does on construction: the file
    is created when absent and kept otherwise. *)
Definition open_append (p : path) : M unit :=
  m <- get_fs;;
  match m !! p with
  | Some Dir => raise IsADirectoryError
  | Some (File _) => ret tt
  | None =>
      match parent_error m p with
      | Some e => raise e
      | None => put_fs (<[p := File []]> m)
      end
  end.

(** [shutil.copy(src, dst)]: into [dst] when it is a directory, onto [dst]
    otherwise. *)
Definition shutil_copy (src dst : path) : M unit :=
  m <- get_fs;;
  let target := if isdir m dst then dst ++ [name src] else dst in
  match m !! src with
  | Some (File data) =>
      if decide (src = target) then raise SameFileError
      else
        match m !! target with
        | Some Dir => raise IsADirectoryError
        | _ =>
            match parent_error m target with
            | Some e => raise e
            | None => put_fs (<[target := File data]> m);; emit (ECopy src target)
            end
        end
  | Some Dir => raise IsADirectoryError
  | None => raise FileNotFoundError
  end.

Definition hidden (n : string) : bool :=
  match n with
  | String c _ => Ascii.eqb c "."
  | EmptyString => false
  end.

(** [glob(f"{d}/*")]: the entries of [d] whose name does not start with a
    dot.  The order is the one the map enumerates them in; [glob] promises
    none.  This is what [glob] returns when the string of [d] has none of
    the characters it reads as a pattern ([has_magic] below). *)
Definition glob_star (m : gmap path node) (d : path) : list path :=
  filter (fun q => dirname q = d ∧ q ≠ [] ∧ hidden (name q) = false)
         (map_to_list m).*1.

(** ** Loggers

    A logger call is one trace event; its two sinks (console and log file)
    are not told apart, and the line is not appended to the log file in the
    file system of the model ([is_log] below). *)

Definition module_name : string := "__main__".

Definition ESC : string := String (ascii_of_nat 27) EmptyString.

Module Color.
Definition PASS : string := ESC +:+ "[92m".
Definition FAIL : string := ESC +:+ "[91m".
Definition ENDC : string := ESC +:+ "[0m".
Definition BOLD : string := ESC +:+ "[1m".
End Color.

(** [toplevel_logger.warning] *)
Definition toplevel_warning (msg : string) : M unit :=
  emit (ELog module_name WARNING msg).

(** ** Workspace management *)

Definition cleandir (dir : path) (quiet : bool) : M unit :=
  f <- is_file dir;;
  (if f then
     when (negb quiet) (toplevel_warning ("Overwriting '" +:+ path_str dir +:+ "'"));;
     os_remove dir
   else
     d <- is_dir dir;;
     if d then
       when (negb quiet) (toplevel_warning ("Overwriting '" +:+ path_str dir +:+ "'"));;
       shutil_rmtree dir
     else ret tt);;
  os_mkdir dir.

Definition mkdir (dir : path) (quiet : bool) : M unit :=
  f <- is_file dir;;
  (if f then
     when (negb quiet) (toplevel_warning ("Overwriting '" +:+ path_str dir +:+ "'"));;
     os_remove dir
   else ret tt);;
  d <- is_dir dir;;
  if negb d then os_mkdir dir else ret tt.

(** ** Options

    A value of an options table, as the signature of [collect_options]
    types it: [str | bool]. *)

Inductive value :=
| VStr (s : string)
| VBool (b : bool).

(** Python truthiness *)
Definition truthy (v : value) : bool :=
  match v with
  | VStr s => negb (String.eqb s "")
  | VBool b => b
  end.

Definition collect_options (contents : gmap string value) : list value :=
  let options := [] in
  let options :=
    match contents !! "option" with
    | Some v => if truthy v then options ++ [VStr "--option"] else options
    | None => options
    end in
  let options :=
    match contents !! "parameter" with
    | Some v => (options ++ [VStr "--parameter"]) ++ [v]
    | None => options
    end in
  options.

(** ** External collaborators

    [subprocess_run] stands for [subprocess.run(args, capture_output=True)]
    with the interpreter on the search path: whatever the target program does
    to the file system, and what it returns.  [tomllib_load] stands for the
    TOML parser ([None]: the document is rejected); the configuration it
    yields is typed as the code annotates it. *)

Record CompletedProcess := {
  stdout : bytes;
  stderr : bytes;
  returncode : Z
}.

Record config := Config {
  cfg_options : option (gmap string value);
  cfg_test : option (list (string * gmap string value))
}.

Record env := Env {
  CWD : path;
  subprocess_run : list string -> gmap path node -> CompletedProcess * gmap path node;
  tomllib_load : bytes -> option config
}.

Definition SUITES_DIR (E : env) : path := pjoin (CWD E) "suites".
Definition TEST_DIR (E : env) : path := pjoin (CWD E) "inputs".
Definition WORK_DIR (E : env) : path := pjoin (CWD E) "__workdir".

(** The argument vector handed to the operating system: every element must
    be a string (or a path); anything else makes [subprocess.run] raise. *)
Fixpoint argv (l : list value) : option (list string) :=
  match l with
  | [] => Some []
  | VStr s :: l' => option_map (cons s) (argv l')
  | VBool _ :: _ => None
  end.

Definition launch (E : env) (head : list string) (options : list value)
  : M CompletedProcess :=
  match argv options with
  | None => raise TypeError
  | Some opts => fun w =>
      let r := subprocess_run E (head ++ opts) (fs w) in
      Ok r.1 (World r.2 (trace w ++ [EExec (head ++ opts)]))
  end.

(** [for p in l: os.remove(p)] and the like *)
Fixpoint for_each {A} (f : A -> M unit) (l : list A) : M unit :=
  match l with
  | [] => ret tt
  | a :: l' => f a;; for_each f l'
  end.

(** [with open(p, "rb") as f: ... f.read()] *)
Definition read_bytes (p : path) : M bytes :=
  m <- get_fs;;
  match m !! p with
  | Some (File data) => ret data
  | Some Dir => raise IsADirectoryError
  | None => raise FileNotFoundError
  end.

(** ** Test cases *)

Module TestCase.

Record t := mk {
  status : bool;
  suite_name : string;
  test_name : string;
  top_results_dir : path;
  input : path;
  output : path;
  options : list value;
  suite_results_dir : path;
  test_results_dir : path
}.

Definition set_status (b : bool) (self : t) : t :=
  mk b (suite_name self) (test_name self) (top_results_dir self)
     (input self) (output self) (options self)
     (suite_results_dir self) (test_results_dir self).

Definition logger (self : t) : string :=
  module_name +:+ "_" +:+ suite_name self +:+ "_" +:+ test_name self.

Definition log_file (self : t) : path :=
  parts (path_str (test_results_dir self) +:+ "/" +:+ test_name self +:+ ".log").

Definition clean (self : t) : M unit :=
  cleandir (test_results_dir self) false.

Definition configure_logger (self : t) : M unit :=
  open_append (log_file self).

Definition init (suite_name test_name : string) (top_results_dir : path)
    (input output : path) (options : list value) : M t :=
  let self :=
    mk true suite_name test_name top_results_dir input output options
       (pjoin top_results_dir suite_name)
       (pjoin (pjoin top_results_dir suite_name) test_name) in
  clean self;;
  configure_logger self;;
  ret self.

Definition fail_line (self : t) (msg : string) : string :=
  test_name self +:+ " [" +:+ Color.FAIL +:+ "FAIL" +:+ Color.ENDC +:+ "] " +:+ msg.

Definition pass_line (self : t) (msg : string) : string :=
  test_name self +:+ " [" +:+ Color.PASS +:+ "PASS" +:+ Color.ENDC +:+ "] " +:+ msg.

Definition test_fail (self : t) (msg : string) : M t :=
  emit (ELog (logger self) INFO (fail_line self msg));;
  ret (set_status false self).

Definition test_pass (self : t) (msg : string) : M unit :=
  emit (ELog (logger self) INFO (pass_line self msg)).

Definition artifact (self : t) (program : path) (kind : string) : path :=
  pjoin (test_results_dir self) (stem program +:+ "." +:+ kind).

Definition returned_msg (program : path) (code : Z) : string :=
  path_str program +:+ " returned with code " +:+ pretty code.

Section with_env.
Variable E : env.

Definition scratch_output (self : t) : path := WORK_DIR E ++ output self.

Definition command (self : t) (program : path) : list string :=
  ["python3"; path_str program; path_str (input self);
   path_str (scratch_output self)].

Definition drain : M unit :=
  m <- get_fs;;
  for_each os_remove (glob_star m (WORK_DIR E)).

Definition run (self : t) (program : path) (copyback : bool) : M t :=
  proc <- launch E (command self program) (options self);;
  when (negb (bool_decide (stdout proc = [])))
    (write_bytes (artifact self program "stdout") (stdout proc));;
  when (negb (bool_decide (stderr proc = [])))
    (write_bytes (artifact self program "stderr") (stderr proc));;
  if negb (returncode proc =? 0) then
    test_fail self (returned_msg program (returncode proc))
  else
    when (status self) (test_pass self "");;
    when copyback
      (shutil_copy (input self) (test_results_dir self);;
       shutil_copy (scratch_output self) (test_results_dir self));;
    drain;;
    ret self.

End with_env.

End TestCase.

(** ** Test suites *)

Module TestSuite.

Record t := mk {
  status : bool;
  suite_name : string;
  tests : list TestCase.t;
  top_results_dir : path;
  suite_results_dir : path;
  options : option (list value)
}.

Definition set_status (b : bool) (self : t) : t :=
  mk b (suite_name self) (tests self) (top_results_dir self)
     (suite_results_dir self) (options self).

Definition set_tests (l : list TestCase.t) (self : t) : t :=
  mk (status self) (suite_name self) l (top_results_dir self)
     (suite_results_dir self) (options self).

Definition set_options (o : list value) (self : t) : t :=
  mk (status self) (suite_name self) (tests self) (top_results_dir self)
     (suite_results_dir self) (Some o).

Definition logger (self : t) : string :=
  module_name +:+ "_" +:+ suite_name self.

Definition log_file (self : t) : path :=
  parts (path_str (suite_results_dir self) +:+ "/" +:+ suite_name self +:+ ".log").

Definition configure_logger (self : t) : M unit :=
  open_append (log_file self).

Definition fail_line (self : t) : string :=
  "Suite " +:+ suite_name self +:+ " finished with status "
    +:+ Color.BOLD +:+ Color.FAIL +:+ "FAIL" +:+ Color.ENDC.

Definition pass_line (self : t) : string :=
  "Suite " +:+ suite_name self +:+ " finished with status "
    +:+ Color.BOLD +:+ Color.PASS +:+ "PASS" +:+ Color.ENDC.

Definition suite_fail_msg (self : t) (msg : string) : M unit :=
  emit (ELog (logger self) ERROR msg);;
  emit (ELog (logger self) INFO (fail_line self)).

Definition suite_fail (self : t) : M unit :=
  emit (ELog (logger self) INFO (fail_line self)).

Definition suite_pass (self : t) : M unit :=
  emit (ELog (logger self) INFO (pass_line self)).

Definition missing_msg (config_file : path) : string :=
  "Suite configuration file '" +:+ path_str config_file +:+ "' does not exist".

Definition no_input_msg (config_file : path) (testcase : string) : string :=
  "Suite configuration file '" +:+ path_str config_file
    +:+ "' invalid. Testcase `" +:+ testcase +:+ "` defines no input.".

Definition not_executable_msg (program : path) : string :=
  "Program `" +:+ path_str program +:+ "` is not a valid executable.".

Section with_env.
Variable E : env.

Definition clean (self : t) : M unit :=
  cleandir (WORK_DIR E) true;;
  mkdir (top_results_dir self) false;;
  cleandir (suite_results_dir self) false.

Definition config_file (self : t) : path :=
  pjoin (SUITES_DIR E) (suite_name self +:+ ".toml").

(** The loop of [configure_tests] over [testcases.items()]. *)
Fixpoint configure_each (self : t) (opts : list value)
    (testcases : list (string * gmap string value)) : M t :=
  match testcases with
  | [] => ret self
  | (testcase, content) :: rest =>
      match content !! "input" with
      | None =>
          suite_fail_msg self (no_input_msg (config_file self) testcase);;
          ret self
      | Some (VBool _) => raise TypeError
      | Some (VStr i) =>
          let input := pjoin (TEST_DIR E) i in
          let output := parts (stem input +:+ ".out") in
          test <- TestCase.init (suite_name self) testcase
                    (top_results_dir self) input output opts;;
          configure_each (set_tests (tests self ++ [test]) self) opts rest
      end
  end.

Definition configure_tests (self : t) : M t :=
  f <- is_file (config_file self);;
  if negb f then
    suite_fail_msg self (missing_msg (config_file self));;
    ret self
  else
    data <- read_bytes (config_file self);;
    match tomllib_load E data with
    | None => raise TOMLDecodeError
    | Some config =>
        let opts :=
          match cfg_options config with
          | Some contents => collect_options contents
          | None => []
          end in
        let self := set_options opts self in
        let testcases :=
          match cfg_test config with
          | Some tc => tc
          | None => []
          end in
        configure_each self opts testcases
    end.

Definition init (name : string) (top_results_dir : path) : M t :=
  let self := mk true name [] top_results_dir (pjoin top_results_dir name) None in
  clean self;;
  configure_logger self;;
  configure_tests self.

(** The loop of [run]: the tests still to run, the running status. *)
Fixpoint run_each (todo : list TestCase.t) (program : path)
    (copyback : bool) (st : bool) : M (list TestCase.t * bool) :=
  match todo with
  | [] => ret ([], st)
  | test :: rest =>
      test' <- TestCase.run E test program copyback;;
      r <- run_each rest program copyback (TestCase.status test' && st);;
      ret (test' :: r.1, r.2)
  end.

Definition run (self : t) (program : path) (copyback : bool) : M t :=
  f <- is_file program;;
  if negb f then
    suite_fail_msg self (not_executable_msg program);;
    ret self
  else if negb (status self) then ret self
  else
    r <- run_each (tests self) program copyback (status self);;
    let self := set_status r.2 (set_tests r.1 self) in
    (if negb (status self) then suite_fail self else suite_pass self);;
    ret self.

End with_env.

End TestSuite.

(** ** The run controller *)

Fixpoint construct_all (E : env) (suite_names : list string)
    (results_dir : path) : M (list TestSuite.t) :=
  match suite_names with
  | [] => ret []
  | suite_name :: rest =>
      suite <- TestSuite.init E suite_name results_dir;;
      suites <- construct_all E rest results_dir;;
      ret (suite :: suites)
  end.

Fixpoint run_all (E : env) (suites : list TestSuite.t) (program : path)
    (copyback : bool) : M (list TestSuite.t) :=
  match suites with
  | [] => ret []
  | suite :: rest =>
      suite' <- TestSuite.run E suite program copyback;;
      rest' <- run_all E rest program copyback;;
      ret (suite' :: rest')
  end.

Definition main (E : env) (program results_dir : path)
    (suite_names : list string) (copyback : bool) : M (list TestSuite.t) :=
  suites <- construct_all E suite_names results_dir;;
  run_all E suites program copyback.

(** ** Predicates on file systems *)

(** Every entry below the root sits in a directory. *)
Definition wf_fs (m : gmap path node) : Prop :=
  map_Forall (fun q _ => q ≠ [] -> isdir m (dirname q) = true) m.

(** [p] is a directory with nothing in it. *)
Definition empty_dir (m : gmap path node) (p : path) : Prop :=
  m !! p = Some Dir ∧ ∀ q, q ≠ [] -> m !! (p ++ q) = None.

(** The warning of [cleandir] and [mkdir], and when it is logged. *)
Definition overwriting (dir : path) : event :=
  ELog module_name WARNING ("Overwriting '" +:+ path_str dir +:+ "'").

Definition warned (quiet : bool) (dir : path) : list event :=
  if quiet then [] else [overwriting dir].

(** Whether the [option] flag counts as set: present and true. *)
Definition flag_set (contents : gmap string value) : bool :=
  match contents !! "option" with
  | Some v => truthy v
  | None => false
  end.

(** A file name as a file system stores it: no separator inside. *)
Fixpoint no_slash (s : string) : bool :=
  match s with
  | EmptyString => true
  | String c s' => negb (Ascii.eqb c "/") && no_slash s'
  end.

(** The two file systems have the same directories. *)
Definition same_dirs (m m' : gmap path node) : Prop :=
  ∀ q, m !! q = Some Dir <-> m' !! q = Some Dir.

Definition is_Dir (n : node) : bool :=
  match n with Dir => true | File _ => false end.

(** [d] is a directory and holds no directory. *)
Definition results_ready (m : gmap path node) (d : path) : Prop :=
  isdir m d = true
  ∧ map_Forall (fun q n => q ≠ [] -> dirname q = d -> is_Dir n = false) m.

(** No entry that [glob] would list in [d] is a directory. *)
Definition flat (m : gmap path node) (d : path) : Prop :=
  map_Forall
    (fun q n => q ≠ [] -> dirname q = d -> hidden (name q) = false ->
                is_Dir n = false) m.

(** No entry that [glob] would list in [d] is left. *)
Definition drained (m : gmap path node) (d : path) : Prop :=
  ∀ x, hidden x = false -> m !! (d ++ [x]) = None.

(** The subprocess launches recorded in a trace, in order. *)
Fixpoint launches (l : list event) : list (list string) :=
  match l with
  | [] => []
  | EExec args :: l' => args :: launches l'
  | _ :: l' => launches l'
  end.

(** The copies recorded in a trace, in order. *)
Fixpoint copies (l : list event) : list (path * path) :=
  match l with
  | [] => []
  | ECopy src dst :: l' => (src, dst) :: copies l'
  | _ :: l' => copies l'
  end.

(** Same directories, and every regular file still a regular file. *)
Definition grows (m m' : gmap path node) : Prop :=
  same_dirs m m' ∧ ∀ q, isfile m q = true -> isfile m' q = true.

(** What [TestCase.run] writes for the captured streams, and what it copies
    back. *)
Definition stream_writes (self : TestCase.t) (program : path)
    (proc : CompletedProcess) : list event :=
  (if bool_decide (stdout proc = []) then []
   else [EWrite (TestCase.artifact self program "stdout") (stdout proc)])
  ++ (if bool_decide (stderr proc = []) then []
      else [EWrite (TestCase.artifact self program "stderr") (stderr proc)]).

Definition copy_back (E : env) (self : TestCase.t) : list event :=
  [ECopy (TestCase.input self)
         (TestCase.test_results_dir self ++ [name (TestCase.input self)]);
   ECopy (TestCase.scratch_output E self)
         (TestCase.test_results_dir self ++ [name (TestCase.scratch_output E self)])].

(** The command line a test case is run with. *)
Definition invocation (E : env) (program : path) (test : TestCase.t)
  : list string :=
  TestCase.command E test program ++ default [] (argv (TestCase.options test)).

(** What a suite needs of the file system to run a test: its result
    directory is there and holds no directory, its options are strings. *)
Definition runnable (m : gmap path node) (test : TestCase.t) : Prop :=
  results_ready m (TestCase.test_results_dir test)
  ∧ is_Some (argv (TestCase.options test)).

(** What copy-back needs of a test and of the target program: the two files
    to copy lie outside the result directory, and the program returns 0 only
    when both are there. *)
Definition copyable (E : env) (program : path) (test : TestCase.t) : Prop :=
  dirname (TestCase.input test) ≠ TestCase.test_results_dir test
  ∧ dirname (TestCase.scratch_output E test) ≠ TestCase.test_results_dir test
  ∧ ∀ m, let r := subprocess_run E (invocation E program test) m in
         returncode r.1 = 0 ->
         isfile r.2 (TestCase.input test) = true
         ∧ isfile r.2 (TestCase.scratch_output E test) = true.

(** A path component as [pathlib] keeps it, and a path made of such. *)
Definition plain (c : string) : bool := no_slash c && keep_part c.

Definition clean_path (p : path) : bool := forallb plain p.

(** A test entry that declares its input, as a string. *)
Definition has_input (content : gmap string value) : bool :=
  match content !! "input" with
  | Some (VStr _) => true
  | _ => false
  end.

Definition declared_input (content : gmap string value) : string :=
  match content !! "input" with
  | Some (VStr i) => i
  | _ => ""
  end.

(** The test case [configure_tests] constructs for an entry. *)
Definition the_test (E : env) (self : TestSuite.t) (opts : list value)
    (entry : string * gmap string value) : TestCase.t :=
  let input := pjoin (TEST_DIR E) (declared_input entry.2) in
  TestCase.mk true (TestSuite.suite_name self) entry.1
    (TestSuite.top_results_dir self) input (parts (stem input +:+ ".out")) opts
    (pjoin (TestSuite.top_results_dir self) (TestSuite.suite_name self))
    (pjoin (pjoin (TestSuite.top_results_dir self) (TestSuite.suite_name self))
           entry.1).


(** The value and the world of an outcome. *)
Definition value_of {A} (d : A) (o : outcome A) : A :=
  match o with Ok a _ => a | Raise _ _ => d end.

Definition world_of {A} (o : outcome A) : world :=
  match o with Ok _ w => w | Raise _ w => w end.

#[global] Instance byte_eq_decision : EqDecision byte := Byte.byte_eq_dec.

#[global] Instance wf_fs_dec (m : gmap path node) : Decision (wf_fs m).
Proof. unfold wf_fs. apply _. Defined.

#[global] Instance results_ready_dec (m : gmap path node) (d : path) :
  Decision (results_ready m d).
Proof. unfold results_ready. apply _. Defined.

#[global] Instance flat_dec (m : gmap path node) (d : path) :
  Decision (flat m d).
Proof. unfold flat. apply _. Defined.

#[global] Instance runnable_dec (m : gmap path node) (test : TestCase.t) :
  Decision (runnable m test).
Proof. unfold runnable. apply _. Defined.

(** ** A concrete scenario

    The harness lives in [/h]; there are four suite files, one input file
    and a target program that copies its input to its output, says so on
    its standard output and returns a given code; without an input to copy
    it complains on its standard error and returns 1. *)

Definition bytes_of (s : string) : bytes := list_byte_of_string s.

Definition demo_fs : gmap path node :=
  list_to_map
    [([], Dir);
     (["h"], Dir);
     (["h"; "prog.py"], File (bytes_of "copy"));
     (["h"; "suites"], Dir);
     (["h"; "suites"; "s.toml"], File (bytes_of "one test"));
     (["h"; "suites"; "bad.toml"], File (bytes_of "second test has no input"));
     (["h"; "suites"; "empty.toml"], File (bytes_of "no test"));
     (["h"; "suites"; "two.toml"], File (bytes_of "two tests"));
     (["h"; "inputs"], Dir);
     (["h"; "inputs"; "a.txt"], File (bytes_of "hello"))].

Definition demo_world : world := World demo_fs [].

Definition demo_program : path := ["h"; "prog.py"].

Definition copying_program (code : Z) (args : list string)
    (m : gmap path node) : CompletedProcess * gmap path node :=
  match args with
  | _ :: _ :: i :: o :: _ =>
      match m !! parts i, isdir m (parts o) with
      | Some (File d), false =>
          ({| stdout := bytes_of "Done!"; stderr := []; returncode := code |},
           <[parts o := File d]> m)
      | _, _ =>
          ({| stdout := []; stderr := bytes_of "Error"; returncode := 1 |}, m)
      end
  | _ => ({| stdout := []; stderr := bytes_of "usage"; returncode := 2 |}, m)
  end.

Definition demo_toml (data : bytes) : option config :=
  if bool_decide (data = bytes_of "one test") then
    Some (Config (Some {["option" := VBool true]})
                 (Some [("t1", {["input" := VStr "a.txt"]})]))
  else if bool_decide (data = bytes_of "second test has no input") then
    Some (Config None
                 (Some [("t1", {["input" := VStr "a.txt"]});
                        ("t2", ∅);
                        ("t3", {["input" := VStr "a.txt"]})]))
  else if bool_decide (data = bytes_of "no test") then
    Some (Config None None)
  else if bool_decide (data = bytes_of "two tests") then
    Some (Config None
                 (Some [("t0", {["input" := VStr "missing.txt"]});
                        ("t1", {["input" := VStr "a.txt"]})]))
  else None.

Definition demo_env (code : Z) : env :=
  Env ["h"] (copying_program code) demo_toml.

(** The suite [name] as constructed in the scenario, and the world then. *)
Definition demo_suite (name : string) : TestSuite.t :=
  value_of (TestSuite.mk true name [] [] [] None)
           (TestSuite.init (demo_env 0) name ["r"] demo_world).

Definition demo_constructed (name : string) : world :=
  world_of (TestSuite.init (demo_env 0) name ["r"] demo_world).

Definition demo_test : TestCase.t :=
  TestCase.mk true "s" "t1" ["r"] ["h"; "inputs"; "a.txt"] ["a.out"]
    [VStr "--option"] ["r"; "s"] ["r"; "s"; "t1"].

(** The two tests of the suite [two]: the input of the first is missing. *)
Definition demo_first : TestCase.t :=
  TestCase.mk true "two" "t0" ["r"] ["h"; "inputs"; "missing.txt"]
    ["missing.out"] [] ["r"; "two"] ["r"; "two"; "t0"].

Definition demo_second : TestCase.t :=
  TestCase.mk true "two" "t1" ["r"] ["h"; "inputs"; "a.txt"] ["a.out"]
    [] ["r"; "two"] ["r"; "two"; "t1"].

(** The suite object and the world [configure_tests] starts from. *)
Definition demo_blank (name : string) : TestSuite.t :=
  TestSuite.mk true name [] ["r"] ["r"; name] None.

Definition demo_cleaned (name : string) : world :=
  world_of (bind (TestSuite.clean (demo_env 0) (demo_blank name))
                 (fun _ => TestSuite.configure_logger (demo_blank name))
                 demo_world).

(** ** Formatting log records

    The two formatter classes of the harness, on the records its loggers
    produce: a level and a message, no arguments, no exception.  Characters
    are bytes, so the digit class of the pattern is [0-9]. *)

Module Colors.
Definition HEADER : string := ESC +:+ "[95m".
Definition OKBLUE : string := ESC +:+ "[94m".
Definition OKCYAN : string := ESC +:+ "[96m".
Definition WARNING : string := ESC +:+ "[93m".
Definition UNDERLINE : string := ESC +:+ "[4m".
End Colors.

Record LogRecord := { levelno : level; msg : string }.

Definition levelname (l : level) : string :=
  match l with
  | WARNING => "WARNING"
  | INFO => "INFO"
  | ERROR => "ERROR"
  end.

Definition is_digit (c : ascii) : bool :=
  (Nat.leb 48 (nat_of_ascii c) && Nat.leb (nat_of_ascii c) 57)%bool.

Definition is_esc (c : ascii) : bool := Ascii.eqb c (ascii_of_nat 27).

(** The length of a match of [\033\[\d\d?m] at the head of [s], if any;
    the optional digit is taken when it can be. *)
Definition match_color (s : string) : option nat :=
  match s with
  | String e (String b (String d1 t)) =>
      if (is_esc e && Ascii.eqb b "[" && is_digit d1)%bool then
        match t with
        | String c1 t1 =>
            if (is_digit c1 &&
                match t1 with String c2 _ => Ascii.eqb c2 "m" | _ => false end)%bool
            then Some 5%nat
            else if Ascii.eqb c1 "m" then Some 4%nat else None
        | EmptyString => None
        end
      else None
  | _ => None
  end.

(** [re.sub(r"\033\[\d\d?m", "", s)], scanning from the left; [skip]
    counts the characters of the current match still to drop. *)
Fixpoint strip_from (skip : nat) (s : string) : string :=
  match s with
  | EmptyString => EmptyString
  | String c rest =>
      match skip with
      | S k => strip_from k rest
      | O =>
          match match_color s with
          | Some n => strip_from (Nat.pred n) rest
          | None => String c (strip_from O rest)
          end
      end
  end.

Definition strip_color (s : string) : string := strip_from 0 s.

Module Formatter.
Definition FORMATS (l : level) (message : string) : string :=
  match l with
  | INFO => message
  | _ => levelname l +:+ ": " +:+ message
  end.

(** [format] rewrites the message of the record it is given: the record
    comes back with the colours gone. *)
Definition format (record : LogRecord) : string * LogRecord :=
  let record := {| levelno := levelno record; msg := strip_color (msg record) |} in
  (FORMATS (levelno record) (msg record), record).
End Formatter.

Module ColorFormatter.
Definition FORMATS (l : level) (message : string) : string :=
  match l with
  | INFO => message
  | WARNING => Colors.WARNING +:+ levelname l +:+ Color.ENDC +:+ ": " +:+ message
  | ERROR => Color.FAIL +:+ levelname l +:+ Color.ENDC +:+ ": " +:+ message
  end.

Definition format (record : LogRecord) : string * LogRecord :=
  (FORMATS (levelno record) (msg record), record).
End ColorFormatter.

(** The two handlers [configure_logger] installs, and what a logger does
    with a record: every handler formats it in turn, in the order the
    handlers were added, all on the one record object. *)
Inductive handler := StreamHandler | FileHandler.

Definition handler_format (h : handler) (record : LogRecord)
  : string * LogRecord :=
  match h with
  | StreamHandler => ColorFormatter.format record
  | FileHandler => Formatter.format record
  end.

Fixpoint callHandlers (handlers : list handler) (record : LogRecord)
  : list (handler * string) :=
  match handlers with
  | [] => []
  | h :: rest =>
      let r := handler_format h record in
      (h, r.1) :: callHandlers rest r.2
  end.

(** No escape character in the string. *)
Fixpoint no_esc (s : string) : bool :=
  match s with
  | EmptyString => true
  | String c s' => negb (is_esc c) && no_esc s'
  end.


(** The colour codes of the harness. *)
Definition palette : list string :=
  [Colors.HEADER; Colors.OKBLUE; Colors.OKCYAN; Color.PASS; Colors.WARNING;
   Color.FAIL; Color.ENDC; Color.BOLD; Colors.UNDERLINE].

(** The file system once a captured stream has been persisted. *)
Definition with_stream (data : bytes) (p : path) (m : gmap path node)
  : gmap path node :=
  if bool_decide (data = []) then m else <[p := File data]> m.

(** ** What a computation may record

    [emits_only P m]: whatever the world, and whether [m] returns or raises,
    it appends to the trace events that satisfy [P] and nothing else. *)
Definition emits_only {A} (P : event -> Prop) (m : M A) : Prop :=
  ∀ w, ∃ l, trace (world_of (m w)) = trace w ++ l ∧ Forall P l.

(** The events of the workspace manager: warnings and changes to
    directories and files. *)
Definition workspace_event (e : event) : Prop :=
  match e with
  | ELog _ WARNING _ | ERemove _ | ERmtree _ | EMkdir _ => True
  | _ => False
  end.

Definition no_launch (e : event) : Prop :=
  match e with
  | EExec _ => False
  | _ => True
  end.

(** ** More of the concrete scenario

    A target program that also leaves a directory [tmp] beside its output;
    a parser that yields a configuration whose second test gives a boolean
    as its input; worlds with a stale artifact and with a dot file in the
    scratch directory. *)

Definition messy_program (args : list string) (m : gmap path node)
  : CompletedProcess * gmap path node :=
  match args with
  | _ :: _ :: i :: o :: _ =>
      ({| stdout := []; stderr := []; returncode := 0 |},
       <[dirname (parts o) ++ ["tmp"] := Dir]> (<[parts o := File []]> m))
  | _ => ({| stdout := []; stderr := bytes_of "usage"; returncode := 2 |}, m)
  end.

Definition messy_env : env := Env ["h"] messy_program demo_toml.

Definition typed_toml (data : bytes) : option config :=
  Some (Config None
               (Some [("t1", {["input" := VStr "a.txt"]});
                      ("t2", {["input" := VBool true]})])).

Definition typed_env : env := Env ["h"] (copying_program 0) typed_toml.

Definition demo_typed_test : TestCase.t :=
  TestCase.mk true "s" "t1" ["r"] ["h"; "inputs"; "a.txt"] ["a.out"]
    (collect_options {["parameter" := VBool true]}) ["r"; "s"] ["r"; "s"; "t1"].


Definition demo_hidden_world : world :=
  World (<[["h"; "__workdir"; ".keep"] := File []]> (fs (demo_constructed "s")))
        [].

(** ** Where the model stands for the program

    Two library behaviours are outside the model.  A statement about what
    the drain leaves in the file system carries the first as a hypothesis;
    a statement about the file system after a logger call leaves the log
    files out.

    [glob] reads the characters [*], [?] and [[] as a pattern wherever they
    occur, also in the directory part: [glob_star] is [glob(f"{d}/*")] for a
    directory whose path string has none of them ([glob.has_magic]).

    A [FileHandler] appends every record of its logger to its log file.
    The model creates the log files and does not write the lines to them, so
    the file system of the model stands for the real one at every path but
    those of log files; all of them are opened under a name that ends in
    [.log]. *)

Definition magic (c : ascii) : bool :=
  Ascii.eqb c "*" || Ascii.eqb c "?" || Ascii.eqb c "[".

(** [glob.has_magic] *)
Fixpoint has_magic (s : string) : bool :=
  match s with
  | EmptyString => false
  | String c s' => magic c || has_magic s'
  end.

(** [s.endswith(suffix)] *)
Fixpoint ends_with (suffix s : string) : bool :=
  String.eqb s suffix ||
  match s with
  | EmptyString => false
  | String _ s' => ends_with suffix s'
  end.

Definition is_log (p : path) : bool := ends_with ".log" (name p).

(** The summary line of a suite, in either colour. *)
Definition summary_of (self : TestSuite.t) (e : event) : Prop :=
  e = ELog (TestSuite.logger self) INFO (TestSuite.pass_line self)
  ∨ e = ELog (TestSuite.logger self) INFO (TestSuite.fail_line self).

(** A target program that writes a text of its own to its output, and a
    suite whose one test has the input [a.out]. *)
Definition stamping_program (args : list string) (m : gmap path node)
  : CompletedProcess * gmap path node :=
  match args with
  | _ :: _ :: _ :: o :: _ =>
      ({| stdout := []; stderr := []; returncode := 0 |},
       <[parts o := File (bytes_of "result")]> m)
  | _ => ({| stdout := []; stderr := bytes_of "usage"; returncode := 2 |}, m)
  end.

Definition stamping_env : env := Env ["h"] stamping_program demo_toml.

Definition out_toml (data : bytes) : option config :=
  Some (Config None (Some [("t1", {["input" := VStr "a.out"]})])).

Definition out_env : env := Env ["h"] stamping_program out_toml.

Definition out_world : world :=
  World (<[["h"; "inputs"; "a.out"] := File (bytes_of "source")]> demo_fs) [].

(** A whole run over three suites with a program that returns 1: the
    second entry of [bad] has no input, [nope] has no configuration file. *)
Definition demo_run : outcome (list TestSuite.t) :=
  main (demo_env 1) demo_program ["r"] ["bad"; "nope"; "s"] false demo_world.

(** Closed goals of the scenario are settled by evaluation. *)
Ltac by_computation :=
  lazymatch goal with
  | |- _ = _ => vm_compute; reflexivity
  | |- _ => apply (bool_decide_unpack _); vm_compute; exact I
  end.

(** For a hypothesis that computes to a falsehood. *)
Ltac never :=
  let H := fresh in
  intros H; exfalso; revert H; change (¬ ?P) with (¬ P);
  apply (bool_decide_unpack _); vm_compute; exact I.

(** * Properties *)

(** ** Paths and well-formed file systems *)

Lemma dirname_snoc (p : path) (x : string) : dirname (p ++ [x]) = p.
Proof. unfold dirname. apply removelast_last. Qed.

Lemma name_snoc (p : path) (x : string) : name (p ++ [x]) = x.
Proof. unfold name. apply last_last. Qed.

Lemma path_snoc (p : path) : p ≠ [] -> ∃ d x, p = d ++ [x].
Proof.
  intros Hp. destruct (exists_last Hp) as (d & x & ->). eauto.
Qed.

Lemma dirname_ne (p : path) : p ≠ [] -> dirname p ≠ p.
Proof.
  intros Hp Heq. destruct (path_snoc p Hp) as (d & x & ->).
  rewrite dirname_snoc in Heq.
  apply (f_equal (@List.length string)) in Heq. rewrite length_app in Heq. simpl in Heq. lia.
Qed.

Lemma dirname_prefix (p q : path) :
  q ≠ [] -> p `prefix_of` dirname q -> p `prefix_of` q.
Proof.
  intros Hq Hp. destruct (path_snoc q Hq) as (d & x & ->).
  rewrite dirname_snoc in Hp. by apply prefix_app_r.
Qed.

Lemma isdir_true (m : gmap path node) (p : path) :
  isdir m p = true <-> m !! p = Some Dir.
Proof.
  unfold isdir. destruct (m !! p) as [[d|]|]; split; congruence.
Qed.

Lemma wf_parent (m : gmap path node) (p : path) (x : string) (n : node) :
  wf_fs m -> m !! (p ++ [x]) = Some n -> m !! p = Some Dir.
Proof.
  intros Hwf Hl. apply isdir_true.
  rewrite <- (dirname_snoc p x). apply (Hwf _ _ Hl).
  intros Heq. by destruct p.
Qed.

Lemma wf_dirname (m : gmap path node) (p : path) (n : node) :
  wf_fs m -> p ≠ [] -> m !! p = Some n -> m !! dirname p = Some Dir.
Proof.
  intros Hwf Hp Hl. apply isdir_true. exact (Hwf _ _ Hl Hp).
Qed.

(** Below anything that is not a directory there is nothing. *)
Lemma wf_nothing_below (m : gmap path node) (p : path) :
  wf_fs m -> m !! p ≠ Some Dir -> ∀ q, q ≠ [] -> m !! (p ++ q) = None.
Proof.
  intros Hwf Hp q. induction q as [|x q IH] using rev_ind; [done|].
  intros _. destruct (m !! (p ++ q ++ [x])) as [n|] eqn:Hl; [|done].
  rewrite app_assoc in Hl. apply wf_parent in Hl; [|done].
  destruct q as [|y q].
  - rewrite app_nil_r in Hl. done.
  - rewrite IH in Hl; [done|]. discriminate.
Qed.

Lemma wf_delete_file (m : gmap path node) (p : path) (d : bytes) :
  wf_fs m -> m !! p = Some (File d) -> wf_fs (delete p m).
Proof.
  intros Hwf Hp q n Hq Hne. apply lookup_delete_Some in Hq as [Hqp Hq].
  apply isdir_true. rewrite lookup_delete_ne.
  - by apply (wf_dirname m q n).
  - intros ->. rewrite (wf_dirname m q n) in Hp; done.
Qed.

Lemma wf_insert_dir (m : gmap path node) (p : path) :
  wf_fs m -> m !! dirname p = Some Dir -> wf_fs (<[p := Dir]> m).
Proof.
  intros Hwf Hp q n Hq Hne. apply isdir_true.
  destruct (decide (p = dirname q)) as [->|Hd].
  { by rewrite lookup_insert_eq. }
  rewrite lookup_insert_ne; [|done].
  apply lookup_insert_Some in Hq as [[<- _]|[_ Hq]]; [done|].
  by apply (wf_dirname m q n).
Qed.

Lemma wf_insert_file (m : gmap path node) (p : path) (d : bytes) :
  wf_fs m -> m !! p ≠ Some Dir -> m !! dirname p = Some Dir ->
  wf_fs (<[p := File d]> m).
Proof.
  intros Hwf Hnd Hp q n Hq Hne. apply isdir_true.
  assert (m !! dirname q = Some Dir) as Hdq.
  { apply lookup_insert_Some in Hq as [[<- _]|[_ Hq]]; [done|].
    by apply (wf_dirname m q n). }
  rewrite lookup_insert_ne; [done|]. intros ->. done.
Qed.

Lemma wf_rmtree (m : gmap path node) (p : path) :
  wf_fs m -> wf_fs (filter (fun kv => ¬ p `prefix_of` kv.1) m).
Proof.
  intros Hwf q n Hq Hne. apply map_lookup_filter_Some in Hq as [Hq Hnp].
  simpl in Hnp. apply isdir_true. apply map_lookup_filter_Some. split.
  - by apply (wf_dirname m q n).
  - simpl. intros Hpre. apply Hnp. by apply dirname_prefix.
Qed.

(** ** The workspace manager *)

Lemma isfile_true (m : gmap path node) (p : path) :
  isfile m p = true <-> ∃ d, m !! p = Some (File d).
Proof.
  unfold isfile. destruct (m !! p) as [[d|]|]; split;
    try congruence; eauto; intros [? ?]; congruence.
Qed.

Lemma cleandir_file (dir : path) (quiet : bool) (w : world) (d : bytes) :
  dir ≠ [] -> fs w !! dir = Some (File d) -> fs w !! dirname dir = Some Dir ->
  cleandir dir quiet w =
    Ok tt (World (<[dir := Dir]> (fs w))
                 (trace w ++ warned quiet dir ++ [ERemove dir; EMkdir dir])).
Proof.
  intros Hne Hf Hp. unfold cleandir, bind, is_file, get_fs, ret. simpl.
  unfold isfile. rewrite Hf.
  destruct quiet; simpl;
    unfold os_remove, os_mkdir, bind, get_fs, put_fs, emit, toplevel_warning,
      parent_error; simpl; rewrite Hf; simpl;
    rewrite lookup_delete_eq, lookup_delete_ne, Hp
      by (by apply not_eq_sym, dirname_ne);
    simpl; rewrite insert_delete_eq, <- ?app_assoc; done.
Qed.

Lemma cleandir_dir (dir : path) (quiet : bool) (w : world) :
  dir ≠ [] -> fs w !! dir = Some Dir -> fs w !! dirname dir = Some Dir ->
  cleandir dir quiet w =
    Ok tt (World (<[dir := Dir]> (filter (fun kv => ¬ dir `prefix_of` kv.1) (fs w)))
                 (trace w ++ warned quiet dir ++ [ERmtree dir; EMkdir dir])).
Proof.
  intros Hne Hd Hp. unfold cleandir, bind, is_file, is_dir, get_fs, ret. simpl.
  unfold isfile, isdir. rewrite Hd.
  assert (filter (fun kv : path * node => ¬ dir `prefix_of` kv.1) (fs w) !! dir = None) as Hgone.
  { apply map_lookup_filter_None. right. intros n _ Hn. by apply Hn. }
  assert (filter (fun kv : path * node => ¬ dir `prefix_of` kv.1) (fs w) !! dirname dir = Some Dir) as Hkept.
  { apply map_lookup_filter_Some. split; [done|]. simpl. intros Hpre.
    destruct (path_snoc dir Hne) as (d & x & ->). rewrite dirname_snoc in Hpre.
    by apply prefix_snoc_not in Hpre. }
  destruct quiet; simpl;
    unfold shutil_rmtree, os_mkdir, bind, get_fs, put_fs, emit, toplevel_warning,
      parent_error; simpl;
    repeat (rewrite ?Hd, ?Hgone, ?Hkept; simpl);
    rewrite <- ?app_assoc; done.
Qed.

Lemma cleandir_absent (dir : path) (quiet : bool) (w : world) :
  fs w !! dir = None -> fs w !! dirname dir = Some Dir ->
  cleandir dir quiet w =
    Ok tt (World (<[dir := Dir]> (fs w)) (trace w ++ [EMkdir dir])).
Proof.
  intros Hn Hp. unfold cleandir, bind, is_file, is_dir, get_fs, ret. simpl.
  unfold isfile, isdir. rewrite Hn.
  unfold os_mkdir, bind, get_fs, put_fs, emit, parent_error. simpl.
  by repeat (rewrite ?Hn, ?Hp; simpl).
Qed.

Lemma cleandir_ok (dir : path) (quiet : bool) (w : world) :
  wf_fs (fs w) -> dir ≠ [] ->
  (fs w !! dir = None -> fs w !! dirname dir = Some Dir) ->
  ∃ w', cleandir dir quiet w = Ok tt w'
    ∧ wf_fs (fs w')
    ∧ empty_dir (fs w') dir
    ∧ (∀ q, ¬ dir `prefix_of` q -> fs w' !! q = fs w !! q)
    ∧ (∃ old, trace w' = trace w ++ old ++ [EMkdir dir]
         ∧ (is_Some (fs w !! dir) -> quiet = false ->
              ∃ removal, old = [overwriting dir; removal]
                ∧ (removal = ERemove dir ∨ removal = ERmtree dir))).
Proof.
  intros Hwf Hne Hpar.
  assert (∀ q : path, ¬ dir `prefix_of` q -> dir ≠ q) as Hqne.
  { intros q Hq ->. by apply Hq. }
  destruct (fs w !! dir) as [[d|]|] eqn:Hl.
  - pose proof (wf_dirname _ _ _ Hwf Hne Hl) as Hp.
    eexists. split; [by apply (cleandir_file dir quiet w d)|]. simpl.
    split; [by apply wf_insert_dir|].
    split; [split|split].
    + by rewrite lookup_insert_eq.
    + intros q Hq. rewrite lookup_insert_ne.
      * apply wf_nothing_below; [done| |done]. by rewrite Hl.
      * intros Heq. rewrite <- (app_nil_r dir) in Heq at 1.
        apply app_inv_head in Heq. done.
    + intros q Hq. rewrite lookup_insert_ne; [done|by apply Hqne].
    + exists (warned quiet dir ++ [ERemove dir]). split.
      * by rewrite <- !app_assoc.
      * intros _ ->. simpl. eauto.
  - pose proof (wf_dirname _ _ _ Hwf Hne Hl) as Hp.
    eexists. split; [by apply (cleandir_dir dir quiet w)|]. simpl.
    assert (filter (fun kv : path * node => ¬ dir `prefix_of` kv.1) (fs w)
              !! dirname dir = Some Dir) as Hkept.
    { apply map_lookup_filter_Some. split; [done|]. simpl. intros Hpre.
      destruct (path_snoc dir Hne) as (d & x & ->).
      rewrite dirname_snoc in Hpre. by apply prefix_snoc_not in Hpre. }
    split; [apply wf_insert_dir; [by apply wf_rmtree|done]|].
    split; [split|split].
    + by rewrite lookup_insert_eq.
    + intros q Hq. rewrite lookup_insert_ne.
      * apply map_lookup_filter_None. right. intros n _ Hn. apply Hn.
        simpl. by apply prefix_app_r.
      * intros Heq. rewrite <- (app_nil_r dir) in Heq at 1.
        apply app_inv_head in Heq. done.
    + intros q Hq. rewrite lookup_insert_ne; [|by apply Hqne].
      destruct (fs w !! q) as [n|] eqn:Hq'.
      * apply map_lookup_filter_Some. done.
      * apply map_lookup_filter_None. by left.
    + exists (warned quiet dir ++ [ERmtree dir]). split.
      * by rewrite <- !app_assoc.
      * intros _ ->. simpl. eauto.
  - specialize (Hpar eq_refl).
    eexists. split; [by apply (cleandir_absent dir quiet w)|]. simpl.
    split; [by apply wf_insert_dir|].
    split; [split|split].
    + by rewrite lookup_insert_eq.
    + intros q Hq. rewrite lookup_insert_ne.
      * apply wf_nothing_below; [done| |done]. by rewrite Hl.
      * intros Heq. rewrite <- (app_nil_r dir) in Heq at 1.
        apply app_inv_head in Heq. done.
    + intros q Hq. rewrite lookup_insert_ne; [done|by apply Hqne].
    + exists []. split; [done|]. intros [? ?]. done.
Qed.


Lemma mkdir_dir (dir : path) (quiet : bool) (w : world) :
  fs w !! dir = Some Dir -> mkdir dir quiet w = Ok tt w.
Proof.
  intros Hd. unfold mkdir, bind, is_file, is_dir, get_fs, ret. simpl.
  unfold isfile, isdir. repeat (rewrite ?Hd; simpl). done.
Qed.

Lemma mkdir_file (dir : path) (quiet : bool) (w : world) (d : bytes) :
  dir ≠ [] -> fs w !! dir = Some (File d) -> fs w !! dirname dir = Some Dir ->
  mkdir dir quiet w =
    Ok tt (World (<[dir := Dir]> (fs w))
                 (trace w ++ warned quiet dir ++ [ERemove dir; EMkdir dir])).
Proof.
  intros Hne Hf Hp. unfold mkdir, bind, is_file, is_dir, get_fs, ret. simpl.
  unfold isfile, isdir. rewrite Hf.
  destruct quiet; simpl;
    unfold os_remove, os_mkdir, bind, get_fs, put_fs, emit, toplevel_warning,
      parent_error; simpl;
    repeat (rewrite ?Hf, ?lookup_delete_eq, ?Hp; simpl;
            rewrite ?lookup_delete_ne by (by apply not_eq_sym, dirname_ne));
    rewrite insert_delete_eq, <- ?app_assoc; done.
Qed.

Lemma mkdir_absent (dir : path) (quiet : bool) (w : world) :
  fs w !! dir = None -> fs w !! dirname dir = Some Dir ->
  mkdir dir quiet w =
    Ok tt (World (<[dir := Dir]> (fs w)) (trace w ++ [EMkdir dir])).
Proof.
  intros Hn Hp. unfold mkdir, bind, is_file, is_dir, get_fs, ret. simpl.
  unfold isfile, isdir. rewrite Hn. simpl.
  unfold os_mkdir, bind, get_fs, put_fs, emit, parent_error. simpl.
  by repeat (rewrite ?Hn, ?Hp; simpl).
Qed.

Lemma empty_dir_insert (m : gmap path node) (dir : path) :
  wf_fs m -> m !! dir ≠ Some Dir -> empty_dir (<[dir := Dir]> m) dir.
Proof.
  intros Hwf Hnd. split; [by rewrite lookup_insert_eq|].
  intros q Hq. rewrite lookup_insert_ne.
  - by apply wf_nothing_below.
  - intros Heq. rewrite <- (app_nil_r dir) in Heq at 1.
    apply app_inv_head in Heq. done.
Qed.


(** C9. [mkdir dir quiet] leaves a directory at [dir] untouched, with all
    the entries below it (the world does not change at all); it removes a
    regular file at [dir] and puts an empty directory in its place; and it
    creates an empty directory where there was nothing. *)
Theorem mkdir_by_cases (dir : path) (quiet : bool) (w : world) :
  wf_fs (fs w) -> dir ≠ [] ->
  (fs w !! dir = None -> fs w !! dirname dir = Some Dir) ->
  match fs w !! dir with
  | Some Dir => mkdir dir quiet w = Ok tt w
  | Some (File _) =>
      ∃ w', mkdir dir quiet w = Ok tt w'
        ∧ fs w' = <[dir := Dir]> (fs w)
        ∧ empty_dir (fs w') dir
        ∧ trace w' = trace w ++ warned quiet dir ++ [ERemove dir; EMkdir dir]
  | None =>
      ∃ w', mkdir dir quiet w = Ok tt w'
        ∧ fs w' = <[dir := Dir]> (fs w)
        ∧ empty_dir (fs w') dir
        ∧ trace w' = trace w ++ [EMkdir dir]
  end.
Proof.
  intros Hwf Hne Hpar. destruct (fs w !! dir) as [[d|]|] eqn:Hl.
  - pose proof (wf_dirname _ _ _ Hwf Hne Hl) as Hp.
    eexists. split; [by apply (mkdir_file dir quiet w d)|]. simpl.
    repeat split; try done; apply empty_dir_insert; try done; by rewrite Hl.
  - by apply mkdir_dir.
  - specialize (Hpar eq_refl).
    eexists. split; [by apply (mkdir_absent dir quiet w)|]. simpl.
    repeat split; try done; apply empty_dir_insert; try done; by rewrite Hl.
Qed.

(** ** The options mapping *)

(** C7. The option list is a fixed function of two keys: [option], when
    present and true, gives the one token [--option]; [parameter], when
    present, gives [--parameter] followed by its value; no other key has any
    influence. *)
Theorem collect_options_fixed_mapping (contents : gmap string value) :
  collect_options contents =
    (if flag_set contents then [VStr "--option"] else [])
      ++ match contents !! "parameter" with
         | Some v => [VStr "--parameter"; v]
         | None => []
         end
  ∧ (∀ b, contents !! "option" = Some (VBool b) -> flag_set contents = b)
  ∧ (contents !! "option" = None -> flag_set contents = false)
  ∧ (∀ k v, k ≠ "option" -> k ≠ "parameter" ->
       collect_options (<[k := v]> contents) = collect_options contents
       ∧ collect_options (delete k contents) = collect_options contents).
Proof.
  unfold collect_options, flag_set. repeat split.
  - destruct (contents !! "option") as [v|]; [destruct (truthy v)|];
      destruct (contents !! "parameter"); done.
  - by intros b ->.
  - by intros ->.
  - by rewrite !lookup_insert_ne.
  - by rewrite !lookup_delete_ne.
Qed.

(** ** File names *)

Lemma split_no_slash (s : string) : no_slash s = true -> split_slash s = [s].
Proof.
  induction s as [|c s IH]; [done|]. simpl. intros H.
  apply andb_prop in H as [Hc Hs]. apply negb_true_iff in Hc.
  rewrite Hc, (IH Hs). done.
Qed.

Lemma no_slash_app (a b : string) :
  no_slash (a +:+ b) = no_slash a && no_slash b.
Proof.
  induction a as [|c a IH]; [done|]. simpl. rewrite IH. by rewrite andb_assoc.
Qed.

Lemma no_slash_substring (s : string) (i n : nat) :
  no_slash s = true -> no_slash (String.substring i n s) = true.
Proof.
  revert i n. induction s as [|c s IH]; intros i n H.
  - by destruct i, n.
  - simpl in H. apply andb_prop in H as [Hc Hs].
    destruct i as [|i], n as [|n]; simpl; try done.
    + by rewrite Hc, (IH 0%nat n Hs).
    + by apply IH.
    + by apply IH.
Qed.

Lemma no_slash_stem (p : path) :
  no_slash (name p) = true -> no_slash (stem p) = true.
Proof.
  intros H. unfold stem. destruct (rfind_dot (name p) 0); [|done].
  destruct (_ && _)%bool; [|done]. by apply no_slash_substring.
Qed.

Lemma keep_part_long (c : string) :
  (2 <= String.length c)%nat -> keep_part c = true.
Proof.
  destruct c as [|a [|b c]]; simpl; try lia. intros _.
  unfold keep_part. simpl. by destruct (Ascii.eqb a ".").
Qed.

Lemma length_append (a b : string) :
  String.length (a +:+ b) = (String.length a + String.length b)%nat.
Proof. induction a as [|c a IH]; simpl; [done|]. by rewrite IH. Qed.

Lemma is_absolute_no_slash (c : string) :
  no_slash c = true -> is_absolute c = false.
Proof.
  destruct c as [|a c]; [done|]. simpl. intros H.
  apply andb_prop in H as [Ha _]. by apply negb_true_iff in Ha.
Qed.

Lemma pjoin_plain (p : path) (c : string) :
  no_slash c = true -> keep_part c = true -> pjoin p c = p ++ [c].
Proof.
  intros Hs Hk. unfold pjoin, parts.
  rewrite (is_absolute_no_slash c Hs), (split_no_slash c Hs). simpl.
  by rewrite Hk.
Qed.

Lemma artifact_path (self : TestCase.t) (program : path) (kind : string) :
  no_slash (name program) = true -> no_slash kind = true ->
  (1 <= String.length kind)%nat ->
  TestCase.artifact self program kind =
    TestCase.test_results_dir self ++ [stem program +:+ "." +:+ kind].
Proof.
  intros Hp Hk Hlen. unfold TestCase.artifact. apply pjoin_plain.
  - rewrite !no_slash_app, (no_slash_stem _ Hp), Hk. done.
  - apply keep_part_long. rewrite !length_append. simpl. lia.
Qed.

(** ** Steps that touch regular files only *)

Lemma same_dirs_refl (m : gmap path node) : same_dirs m m.
Proof. by intros q. Qed.

Lemma same_dirs_trans (m1 m2 m3 : gmap path node) :
  same_dirs m1 m2 -> same_dirs m2 m3 -> same_dirs m1 m3.
Proof. intros H12 H23 q. by rewrite (H12 q). Qed.

Lemma grows_refl (m : gmap path node) : grows m m.
Proof. split; [apply same_dirs_refl|done]. Qed.

Lemma grows_trans (m1 m2 m3 : gmap path node) :
  grows m1 m2 -> grows m2 m3 -> grows m1 m3.
Proof.
  intros [Hd12 Hf12] [Hd23 Hf23]. split; [by eapply same_dirs_trans|].
  intros q Hq. by apply Hf23, Hf12.
Qed.

Lemma grows_insert_file (m : gmap path node) (p : path) (d : bytes) :
  m !! p ≠ Some Dir -> grows m (<[p := File d]> m).
Proof.
  intros Hp. split.
  - intros q. destruct (decide (p = q)) as [<-|Hne].
    + rewrite lookup_insert_eq. split; [done|discriminate].
    + by rewrite lookup_insert_ne.
  - intros q. unfold isfile. destruct (decide (p = q)) as [<-|Hne].
    + by rewrite lookup_insert_eq.
    + by rewrite lookup_insert_ne.
Qed.

Lemma results_ready_spec (m : gmap path node) (d : path) :
  results_ready m d <->
  m !! d = Some Dir ∧ ∀ x, m !! (d ++ [x]) ≠ Some Dir.
Proof.
  unfold results_ready. rewrite isdir_true. split; intros [Hd Hsub]; split;
    try done.
  - intros x Hx. specialize (Hsub _ _ Hx). cbv beta in Hsub.
    rewrite dirname_snoc in Hsub.
    assert (d ++ [x] ≠ []) as Hne by (by destruct d).
    by specialize (Hsub Hne eq_refl).
  - intros q n Hq Hne Hdq. destruct n; [done|]. exfalso.
    destruct (path_snoc q Hne) as (d' & x & ->).
    rewrite dirname_snoc in Hdq. subst d'. by apply (Hsub x).
Qed.

Lemma flat_spec (m : gmap path node) (d : path) :
  flat m d <-> ∀ x, hidden x = false -> m !! (d ++ [x]) ≠ Some Dir.
Proof.
  unfold flat. split.
  - intros Hf x Hx Hl. specialize (Hf _ _ Hl). cbv beta in Hf.
    rewrite dirname_snoc, name_snoc in Hf.
    assert (d ++ [x] ≠ []) as Hne by (by destruct d).
    by specialize (Hf Hne eq_refl Hx).
  - intros Hf q n Hq Hne Hdq Hh. destruct n; [done|]. exfalso.
    destruct (path_snoc q Hne) as (d' & x & ->).
    rewrite dirname_snoc in Hdq. rewrite name_snoc in Hh. subst d'.
    by apply (Hf x).
Qed.

Lemma results_ready_same_dirs (m m' : gmap path node) (d : path) :
  same_dirs m m' -> results_ready m d -> results_ready m' d.
Proof.
  intros Hs. rewrite !results_ready_spec. intros [Hd Hsub]. split.
  - by apply Hs.
  - intros x Hx. apply (Hsub x). by apply Hs.
Qed.

Lemma flat_same_dirs (m m' : gmap path node) (d : path) :
  same_dirs m m' -> flat m d -> flat m' d.
Proof.
  intros Hs. rewrite !flat_spec. intros Hf x Hx Hl.
  apply (Hf x Hx). by apply Hs.
Qed.

Lemma bind_Ok {A B} (m : M A) (k : A -> M B) (w w1 : world) (a : A) :
  m w = Ok a w1 -> bind m k w = k a w1.
Proof. intros H. unfold bind. by rewrite H. Qed.

Lemma write_bytes_ok (p : path) (data : bytes) (w : world) :
  fs w !! p ≠ Some Dir -> fs w !! dirname p = Some Dir ->
  write_bytes p data w =
    Ok tt (World (<[p := File data]> (fs w)) (trace w ++ [EWrite p data])).
Proof.
  intros Hp Hd. unfold write_bytes, bind, get_fs, put_fs, emit, parent_error.
  simpl. rewrite Hd. by destruct (fs w !! p) as [[?|]|].
Qed.

Lemma shutil_copy_ok (src dst : path) (d : bytes) (w : world) :
  fs w !! dst = Some Dir -> fs w !! src = Some (File d) ->
  dirname src ≠ dst -> fs w !! (dst ++ [name src]) ≠ Some Dir ->
  shutil_copy src dst w =
    Ok tt (World (<[dst ++ [name src] := File d]> (fs w))
                 (trace w ++ [ECopy src (dst ++ [name src])])).
Proof.
  intros Hdst Hsrc Hne Ht.
  unfold shutil_copy, bind, get_fs, put_fs, emit, parent_error, isdir. simpl.
  rewrite Hdst, Hsrc. rewrite decide_False.
  - rewrite dirname_snoc, Hdst.
    by destruct (fs w !! (dst ++ [name src])) as [[?|]|].
  - intros Heq. apply (f_equal dirname) in Heq.
    by rewrite dirname_snoc in Heq.
Qed.

(** ** Draining the scratch directory *)

Lemma elem_of_glob_star (m : gmap path node) (d q : path) :
  q ∈ glob_star m d <->
  is_Some (m !! q) ∧ q ≠ [] ∧ dirname q = d ∧ hidden (name q) = false.
Proof.
  unfold glob_star. rewrite list_elem_of_filter, list_elem_of_fmap. split.
  - intros [(Hd & Hne & Hh) ((q' & n) & -> & Hin)]. simpl in *.
    apply elem_of_map_to_list in Hin. eauto.
  - intros ([n Hn] & Hne & Hd & Hh). split; [done|].
    exists (q, n). split; [done|]. by apply elem_of_map_to_list.
Qed.

Lemma NoDup_glob_star (m : gmap path node) (d : path) : NoDup (glob_star m d).
Proof.
  unfold glob_star. apply NoDup_filter, NoDup_fst_map_to_list.
Qed.

Lemma os_remove_file (p : path) (d : bytes) (w : world) :
  fs w !! p = Some (File d) ->
  os_remove p w = Ok tt (World (delete p (fs w)) (trace w ++ [ERemove p])).
Proof.
  intros Hp. unfold os_remove, bind, get_fs, put_fs, emit. simpl.
  by rewrite Hp.
Qed.

Lemma for_each_remove_ok (l : list path) :
  NoDup l -> ∀ w, (∀ p, p ∈ l -> isfile (fs w) p = true) ->
  ∃ w', for_each os_remove l w = Ok tt w'
    ∧ trace w' = trace w ++ map ERemove l
    ∧ (∀ q, q ∈ l -> fs w' !! q = None)
    ∧ (∀ q, q ∉ l -> fs w' !! q = fs w !! q).
Proof.
  induction 1 as [|p l Hp Hnd IH]; intros w Hfiles.
  - exists w. simpl. unfold ret. rewrite app_nil_r.
    repeat split; try done. intros q Hq. by apply elem_of_nil in Hq.
  - assert (isfile (fs w) p = true) as Hf by (apply Hfiles; left).
    apply isfile_true in Hf as [d Hd].
    destruct (IH (World (delete p (fs w)) (trace w ++ [ERemove p])))
      as (w' & Hrun & Htr & Hin & Hout).
    { intros q Hq. simpl. unfold isfile. rewrite lookup_delete_ne.
      - apply Hfiles. by right.
      - intros ->. done. }
    exists w'. simpl. rewrite (bind_Ok _ _ _ _ _ (os_remove_file p d w Hd)).
    split; [done|]. simpl in *. split; [by rewrite Htr, <- app_assoc|]. split.
    + intros q Hq. destruct (decide (q ∈ l)) as [Hl|Hl]; [by apply Hin|].
      rewrite (Hout q Hl). apply elem_of_cons in Hq as [->|Hq]; [|done].
      apply lookup_delete_eq.
    + intros q Hq. apply not_elem_of_cons in Hq as [Hqp Hql].
      rewrite (Hout q Hql). by apply lookup_delete_ne.
Qed.

Lemma drain_ok (E : env) (w : world) :
  flat (fs w) (WORK_DIR E) ->
  ∃ w' removed, TestCase.drain E w = Ok tt w'
    ∧ same_dirs (fs w) (fs w')
    ∧ drained (fs w') (WORK_DIR E)
    ∧ trace w' = trace w ++ map ERemove removed.
Proof.
  intros Hflat. pose proof (proj1 (flat_spec _ _) Hflat) as Hf.
  assert (∀ p, p ∈ glob_star (fs w) (WORK_DIR E) -> isfile (fs w) p = true)
    as Hfiles.
  { intros p Hp. apply elem_of_glob_star in Hp as ([n Hn] & Hne & Hd & Hh).
    destruct (path_snoc p Hne) as (d' & x & ->).
    rewrite dirname_snoc in Hd. rewrite name_snoc in Hh. subst d'.
    apply isfile_true. destruct n as [data|]; [eauto|]. by apply Hf in Hn. }
  destruct (for_each_remove_ok _ (NoDup_glob_star (fs w) (WORK_DIR E)) w Hfiles)
    as (w' & Hrun & Htr & Hin & Hout).
  exists w', (glob_star (fs w) (WORK_DIR E)).
  split; [|split; [|split]]; try done.
  - intros q. destruct (decide (q ∈ glob_star (fs w) (WORK_DIR E))) as [Hq|Hq].
    + rewrite (Hin q Hq). apply Hfiles, isfile_true in Hq as [d Hd].
      rewrite Hd. split; discriminate.
    + by rewrite (Hout q Hq).
  - intros x Hx.
    destruct (decide (WORK_DIR E ++ [x] ∈ glob_star (fs w) (WORK_DIR E)))
      as [Hq|Hq]; [by apply Hin|].
    rewrite (Hout _ Hq). destruct (fs w !! (WORK_DIR E ++ [x])) eqn:Hl; [|done].
    exfalso. apply Hq, elem_of_glob_star.
    rewrite Hl, dirname_snoc, name_snoc. repeat split; eauto.
    by destruct (WORK_DIR E).
Qed.

(** ** Running one test case *)

Lemma when_write_ok (data : bytes) (p : path) (w : world) :
  fs w !! p ≠ Some Dir -> fs w !! dirname p = Some Dir ->
  ∃ w', when (negb (bool_decide (data = []))) (write_bytes p data) w = Ok tt w'
    ∧ grows (fs w) (fs w')
    ∧ trace w' = trace w ++
        (if bool_decide (data = []) then [] else [EWrite p data]).
Proof.
  intros Hp Hd. destruct (bool_decide (data = [])); simpl.
  - exists w. unfold ret. rewrite app_nil_r. split; [done|].
    split; [apply grows_refl|done].
  - eexists. split; [by apply write_bytes_ok|]. simpl.
    split; [by apply grows_insert_file|done].
Qed.

Lemma copy_back_ok (E : env) (self : TestCase.t) (w : world) :
  results_ready (fs w) (TestCase.test_results_dir self) ->
  isfile (fs w) (TestCase.input self) = true ->
  isfile (fs w) (TestCase.scratch_output E self) = true ->
  dirname (TestCase.input self) ≠ TestCase.test_results_dir self ->
  dirname (TestCase.scratch_output E self) ≠ TestCase.test_results_dir self ->
  ∃ w', bind (shutil_copy (TestCase.input self) (TestCase.test_results_dir self))
             (fun _ => shutil_copy (TestCase.scratch_output E self)
                                   (TestCase.test_results_dir self)) w
          = Ok tt w'
    ∧ grows (fs w) (fs w')
    ∧ trace w' = trace w ++ copy_back E self.
Proof.
  intros Hr Hi Ho Hni Hno.
  pose proof (proj1 (results_ready_spec _ _) Hr) as [Hd Hsub].
  apply isfile_true in Hi as [di Hi].
  pose proof (grows_insert_file (fs w)
    (TestCase.test_results_dir self ++ [name (TestCase.input self)]) di
    (Hsub _)) as Hg1.
  rewrite (bind_Ok _ _ _ _ _
    (shutil_copy_ok _ _ di w Hd Hi Hni (Hsub _))).
  set (w1 := World _ _).
  assert (isfile (fs w1) (TestCase.scratch_output E self) = true) as Ho1
    by (by apply Hg1).
  apply isfile_true in Ho1 as [do Ho1].
  assert (results_ready (fs w1) (TestCase.test_results_dir self)) as Hr1
    by (apply (results_ready_same_dirs (fs w)); [apply Hg1|done]).
  pose proof (proj1 (results_ready_spec _ _) Hr1) as [Hd1 Hsub1].
  eexists. split.
  { by apply (shutil_copy_ok _ _ do w1 Hd1 Ho1 Hno (Hsub1 _)). }
  simpl. split.
  - eapply grows_trans; [exact Hg1|]. by apply grows_insert_file.
  - unfold copy_back. by rewrite <- app_assoc.
Qed.

Lemma launch_ok (E : env) (head : list string) (options : list value)
    (opts : list string) (w : world) :
  argv options = Some opts ->
  launch E head options w =
    Ok (subprocess_run E (head ++ opts) (fs w)).1
       (World (subprocess_run E (head ++ opts) (fs w)).2
              (trace w ++ [EExec (head ++ opts)])).
Proof. intros H. unfold launch. by rewrite H. Qed.

Lemma TestCase_run_ok (E : env) (self : TestCase.t) (program : path)
    (copyback : bool) (w : world) (opts : list string) :
  let args := TestCase.command E self program ++ opts in
  let proc := (subprocess_run E args (fs w)).1 in
  let m1 := (subprocess_run E args (fs w)).2 in
  argv (TestCase.options self) = Some opts ->
  no_slash (name program) = true ->
  results_ready m1 (TestCase.test_results_dir self) ->
  (returncode proc = 0 -> flat m1 (WORK_DIR E)) ->
  (returncode proc = 0 -> copyback = true ->
     isfile m1 (TestCase.input self) = true
     ∧ isfile m1 (TestCase.scratch_output E self) = true
     ∧ dirname (TestCase.input self) ≠ TestCase.test_results_dir self
     ∧ dirname (TestCase.scratch_output E self) ≠ TestCase.test_results_dir self) ->
  ∃ w' tail,
    TestCase.run E self program copyback w =
      Ok (if returncode proc =? 0 then self
          else TestCase.set_status false self) w'
    ∧ same_dirs m1 (fs w')
    ∧ trace w' = trace w ++ [EExec args] ++ stream_writes self program proc ++ tail
    ∧ if returncode proc =? 0 then
        drained (fs w') (WORK_DIR E)
        ∧ ∃ removed,
            tail = (if TestCase.status self
                    then [ELog (TestCase.logger self) INFO (TestCase.pass_line self "")]
                    else [])
                   ++ (if copyback then copy_back E self else [])
                   ++ map ERemove removed
      else grows m1 (fs w')
           ∧ tail = [ELog (TestCase.logger self) INFO
                       (TestCase.fail_line self
                          (TestCase.returned_msg program (returncode proc)))].
Proof.
  intros args proc m1 Hargv Hprog Hready Hflat Hcopy.
  unfold TestCase.run.
  rewrite (bind_Ok _ _ _ _ _ (launch_ok E _ _ opts w Hargv)).
  fold args. fold proc. fold m1.
  set (w1 := World m1 _).
  (* the captured streams *)
  pose proof (proj1 (results_ready_spec _ _) Hready) as [Hd Hsub].
  destruct (when_write_ok (stdout proc) (TestCase.artifact self program "stdout") w1)
    as (w2 & Hrun2 & Hg2 & Htr2).
  { rewrite artifact_path by (done || (simpl; lia)). apply Hsub. }
  { rewrite artifact_path by (done || (simpl; lia)). by rewrite dirname_snoc. }
  rewrite (bind_Ok _ _ _ _ _ Hrun2).
  assert (results_ready (fs w2) (TestCase.test_results_dir self)) as Hready2
    by (apply (results_ready_same_dirs m1); [apply Hg2|done]).
  pose proof (proj1 (results_ready_spec _ _) Hready2) as [Hd2 Hsub2].
  destruct (when_write_ok (stderr proc) (TestCase.artifact self program "stderr") w2)
    as (w3 & Hrun3 & Hg3 & Htr3).
  { rewrite artifact_path by (done || (simpl; lia)). apply Hsub2. }
  { rewrite artifact_path by (done || (simpl; lia)). by rewrite dirname_snoc. }
  rewrite (bind_Ok _ _ _ _ _ Hrun3).
  pose proof (grows_trans _ _ _ Hg2 Hg3) as Hg13. simpl in Hg13.
  assert (trace w3 = trace w ++ [EExec args] ++ stream_writes self program proc)
    as Htr.
  { rewrite Htr3, Htr2. unfold w1, stream_writes. simpl.
    by rewrite <- !app_assoc. }
  destruct (returncode proc =? 0) eqn:Hrc; simpl.
  - (* the program returned 0 *)
    apply Z.eqb_eq in Hrc. specialize (Hflat Hrc). specialize (Hcopy Hrc).
    set (passed := if TestCase.status self
                   then [ELog (TestCase.logger self) INFO (TestCase.pass_line self "")]
                   else []).
    set (w4 := World (fs w3) (trace w3 ++ passed)).
    assert (when (TestCase.status self) (TestCase.test_pass self "") w3 = Ok tt w4)
      as Hrun4.
    { unfold w4, passed. destruct (TestCase.status self); simpl.
      - done.
      - unfold ret. rewrite app_nil_r. by destruct w3. }
    rewrite (bind_Ok _ _ _ _ _ Hrun4).
    assert (∃ w5, when copyback
               (bind (shutil_copy (TestCase.input self) (TestCase.test_results_dir self))
                     (fun _ => shutil_copy (TestCase.scratch_output E self)
                                           (TestCase.test_results_dir self))) w4
               = Ok tt w5
             ∧ grows (fs w4) (fs w5)
             ∧ trace w5 = trace w4 ++ (if copyback then copy_back E self else []))
      as (w5 & Hrun5 & Hg5 & Htr5).
    { destruct copyback; simpl.
      - destruct (Hcopy eq_refl) as (Hi & Ho & Hni & Hno).
        apply copy_back_ok; simpl; try done.
        + apply (results_ready_same_dirs m1); [apply Hg13|done].
        + by apply Hg13.
        + by apply Hg13.
      - exists w4. unfold ret. rewrite app_nil_r.
        split; [done|]. split; [apply grows_refl|done]. }
    rewrite (bind_Ok _ _ _ _ _ Hrun5).
    assert (same_dirs m1 (fs w5)) as Hs15.
    { eapply same_dirs_trans; [apply Hg13|]. apply Hg5. }
    destruct (drain_ok E w5) as (w6 & removed & Hrun6 & Hs6 & Hdr & Htr6).
    { by apply (flat_same_dirs m1). }
    rewrite (bind_Ok _ _ _ _ _ Hrun6). unfold ret.
    exists w6. eexists. split; [done|].
    split; [by eapply same_dirs_trans|]. split.
    + rewrite Htr6, Htr5. unfold w4. simpl. rewrite Htr.
      rewrite <- !app_assoc. reflexivity.
    + split; [done|]. by exists removed.
  - (* the program returned something else *)
    unfold TestCase.test_fail, bind, emit, ret. simpl.
    eexists. eexists. split; [done|]. simpl.
    split; [apply Hg13|]. split; [|done].
    rewrite Htr. by rewrite <- !app_assoc.
Qed.

Lemma launches_app (l1 l2 : list event) :
  launches (l1 ++ l2) = launches l1 ++ launches l2.
Proof.
  induction l1 as [|e l1 IH]; [done|]. destruct e; simpl; by rewrite ?IH.
Qed.

Lemma copies_app (l1 l2 : list event) :
  copies (l1 ++ l2) = copies l1 ++ copies l2.
Proof.
  induction l1 as [|e l1 IH]; [done|]. destruct e; simpl; by rewrite ?IH.
Qed.

Lemma launches_removes (l : list path) : launches (map ERemove l) = [].
Proof. by induction l. Qed.

Lemma copies_removes (l : list path) : copies (map ERemove l) = [].
Proof. by induction l. Qed.

Lemma launches_stream_writes (self : TestCase.t) (program : path)
    (proc : CompletedProcess) :
  launches (stream_writes self program proc) = [].
Proof. unfold stream_writes. by do 2 case_bool_decide. Qed.

Lemma copies_stream_writes (self : TestCase.t) (program : path)
    (proc : CompletedProcess) :
  copies (stream_writes self program proc) = [].
Proof. unfold stream_writes. by do 2 case_bool_decide. Qed.

(** C5. A test case that is run as constructed ends up passed exactly when
    the target program returned 0, whatever the program wrote to its
    standard streams; on any other code the last thing it does is to log the
    FAIL line that names the program and the code. *)
Theorem status_follows_exit_code (E : env) (self : TestCase.t) (program : path)
    (copyback : bool) (w : world) (opts : list string) :
  let args := TestCase.command E self program ++ opts in
  let proc := (subprocess_run E args (fs w)).1 in
  let m1 := (subprocess_run E args (fs w)).2 in
  TestCase.status self = true ->
  argv (TestCase.options self) = Some opts ->
  no_slash (name program) = true ->
  results_ready m1 (TestCase.test_results_dir self) ->
  (returncode proc = 0 -> flat m1 (WORK_DIR E)) ->
  (returncode proc = 0 -> copyback = true ->
     isfile m1 (TestCase.input self) = true
     ∧ isfile m1 (TestCase.scratch_output E self) = true
     ∧ dirname (TestCase.input self) ≠ TestCase.test_results_dir self
     ∧ dirname (TestCase.scratch_output E self) ≠ TestCase.test_results_dir self) ->
  ∃ self' w',
    TestCase.run E self program copyback w = Ok self' w'
    ∧ TestCase.status self' = (returncode proc =? 0)
    ∧ (returncode proc ≠ 0 ->
         trace w' = trace w ++ [EExec args] ++ stream_writes self program proc
           ++ [ELog (TestCase.logger self) INFO
                 (TestCase.test_name self +:+ " [" +:+ Color.FAIL +:+ "FAIL"
                    +:+ Color.ENDC +:+ "] " +:+ path_str program
                    +:+ " returned with code " +:+ pretty (returncode proc))]).
Proof.
  intros args proc m1 Hst Hargv Hprog Hready Hflat Hcopy.
  destruct (TestCase_run_ok E self program copyback w opts
              Hargv Hprog Hready Hflat Hcopy)
    as (w' & tail & Hrun & _ & Htr & Htail).
  fold args proc m1 in Hrun, Htr, Htail.
  eexists. exists w'. split; [exact Hrun|].
  destruct (returncode proc =? 0) eqn:Hrc.
  - split; [done|]. intros Hne. by apply Z.eqb_eq in Hrc.
  - split; [done|]. intros _. destruct Htail as [_ ->]. exact Htr.
Qed.

Lemma when_write_eq (data : bytes) (p : path) (w : world) :
  fs w !! p ≠ Some Dir -> fs w !! dirname p = Some Dir ->
  when (negb (bool_decide (data = []))) (write_bytes p data) w =
    Ok tt (World (with_stream data p (fs w))
                 (trace w ++ if bool_decide (data = []) then []
                             else [EWrite p data])).
Proof.
  intros Hp Hd. unfold with_stream. destruct (bool_decide (data = [])); simpl.
  - unfold ret. rewrite app_nil_r. by destruct w.
  - by apply write_bytes_ok.
Qed.

Lemma grows_with_stream (data : bytes) (p : path) (m : gmap path node) :
  m !! p ≠ Some Dir -> grows m (with_stream data p m).
Proof.
  intros Hp. unfold with_stream. destruct (bool_decide (data = [])).
  - apply grows_refl.
  - by apply grows_insert_file.
Qed.

(** [TestCase.run] up to the point where it has persisted the streams. *)
Lemma TestCase_run_streams (E : env) (self : TestCase.t) (program : path)
    (copyback : bool) (w : world) (opts : list string) :
  let args := TestCase.command E self program ++ opts in
  let proc := (subprocess_run E args (fs w)).1 in
  let m1 := (subprocess_run E args (fs w)).2 in
  let m3 := with_stream (stderr proc) (TestCase.artifact self program "stderr")
              (with_stream (stdout proc) (TestCase.artifact self program "stdout")
                 m1) in
  argv (TestCase.options self) = Some opts ->
  no_slash (name program) = true ->
  results_ready m1 (TestCase.test_results_dir self) ->
  grows m1 m3
  ∧ TestCase.run E self program copyback w =
      (if negb (returncode proc =? 0) then
         TestCase.test_fail self (TestCase.returned_msg program (returncode proc))
       else
         bind (when (TestCase.status self) (TestCase.test_pass self ""))
           (fun _ =>
              bind (when copyback
                      (bind (shutil_copy (TestCase.input self)
                                         (TestCase.test_results_dir self))
                            (fun _ => shutil_copy (TestCase.scratch_output E self)
                                                  (TestCase.test_results_dir self))))
                (fun _ => bind (TestCase.drain E) (fun _ => ret self))))
        (World m3 (trace w ++ [EExec args] ++ stream_writes self program proc)).
Proof.
  intros args proc m1 m3 Hargv Hprog Hready.
  pose proof (proj1 (results_ready_spec _ _) Hready) as [Hd Hsub].
  assert (m1 !! TestCase.artifact self program "stdout" ≠ Some Dir) as Ho.
  { rewrite artifact_path by (done || (simpl; lia)). apply Hsub. }
  assert (m1 !! dirname (TestCase.artifact self program "stdout") = Some Dir) as Hod.
  { rewrite artifact_path by (done || (simpl; lia)). by rewrite dirname_snoc. }
  pose proof (grows_with_stream (stdout proc) _ m1 Ho) as Hg2.
  set (m2 := with_stream (stdout proc) _ m1) in *.
  assert (results_ready m2 (TestCase.test_results_dir self)) as Hready2
    by (apply (results_ready_same_dirs m1); [apply Hg2|done]).
  pose proof (proj1 (results_ready_spec _ _) Hready2) as [Hd2 Hsub2].
  assert (m2 !! TestCase.artifact self program "stderr" ≠ Some Dir) as He.
  { rewrite artifact_path by (done || (simpl; lia)). apply Hsub2. }
  assert (m2 !! dirname (TestCase.artifact self program "stderr") = Some Dir) as Hed.
  { rewrite artifact_path by (done || (simpl; lia)). by rewrite dirname_snoc. }
  split.
  { eapply grows_trans; [exact Hg2|]. by apply grows_with_stream. }
  unfold TestCase.run.
  rewrite (bind_Ok _ _ _ _ _ (launch_ok E _ _ opts w Hargv)).
  fold args. fold proc. fold m1.
  rewrite (bind_Ok _ _ _ _ _
             (when_write_eq (stdout proc) _ (World m1 _) Ho Hod)).
  cbn [fs trace]. fold m2.
  rewrite (bind_Ok _ _ _ _ _
             (when_write_eq (stderr proc) _ (World m2 _) He Hed)).
  cbn [fs trace]. unfold stream_writes. rewrite <- !app_assoc. reflexivity.
Qed.

Lemma with_stream_ne (data : bytes) (p q : path) (m : gmap path node) :
  p ≠ q -> with_stream data p m !! q = m !! q.
Proof.
  intros H. unfold with_stream. case_bool_decide; [done|].
  by rewrite lookup_insert_ne.
Qed.

(** The stream files lie in the result directory. *)
Lemma streams_outside (self : TestCase.t) (program q : path)
    (out err : bytes) (m : gmap path node) :
  no_slash (name program) = true ->
  dirname q ≠ TestCase.test_results_dir self ->
  with_stream err (TestCase.artifact self program "stderr")
    (with_stream out (TestCase.artifact self program "stdout") m) !! q = m !! q.
Proof.
  intros Hprog Hq.
  rewrite !with_stream_ne; [done| |];
    rewrite artifact_path by (done || (simpl; lia));
    intros <-; by rewrite dirname_snoc in Hq.
Qed.

(** The drain, with what it leaves alone. *)
Lemma drain_frame (E : env) (w : world) :
  flat (fs w) (WORK_DIR E) ->
  ∃ w' removed, TestCase.drain E w = Ok tt w'
    ∧ trace w' = trace w ++ map ERemove removed
    ∧ ∀ q, dirname q ≠ WORK_DIR E ∨ hidden (name q) = true ->
           fs w' !! q = fs w !! q.
Proof.
  intros Hflat. pose proof (proj1 (flat_spec _ _) Hflat) as Hf.
  assert (∀ p, p ∈ glob_star (fs w) (WORK_DIR E) -> isfile (fs w) p = true)
    as Hfiles.
  { intros p Hp. apply elem_of_glob_star in Hp as ([n Hn] & Hne & Hd & Hh).
    destruct (path_snoc p Hne) as (d' & x & ->).
    rewrite dirname_snoc in Hd. rewrite name_snoc in Hh. subst d'.
    apply isfile_true. destruct n as [data|]; [eauto|]. by apply Hf in Hn. }
  destruct (for_each_remove_ok _ (NoDup_glob_star (fs w) (WORK_DIR E)) w Hfiles)
    as (w' & Hrun & Htr & _ & Hout).
  exists w', (glob_star (fs w) (WORK_DIR E)). split; [|split].
  - unfold TestCase.drain, bind, get_fs. exact Hrun.
  - exact Htr.
  - intros q Hq. apply Hout. intros Hin.
    apply elem_of_glob_star in Hin as (_ & _ & Hd & Hh).
    destruct Hq as [?|Hhid]; [done|]. congruence.
Qed.

(** [TestCase.run] with copy-back for a program that returned 0, up to the
    point where it drains the scratch directory: the two copies are in
    place. *)
Lemma TestCase_run_copied (E : env) (self : TestCase.t) (program : path)
    (w : world) (opts : list string) (di do : bytes) :
  let args := TestCase.command E self program ++ opts in
  let proc := (subprocess_run E args (fs w)).1 in
  let m1 := (subprocess_run E args (fs w)).2 in
  let m3 := with_stream (stderr proc) (TestCase.artifact self program "stderr")
              (with_stream (stdout proc) (TestCase.artifact self program "stdout")
                 m1) in
  let to_input := TestCase.test_results_dir self ++ [name (TestCase.input self)] in
  let to_output :=
    TestCase.test_results_dir self ++ [name (TestCase.scratch_output E self)] in
  argv (TestCase.options self) = Some opts ->
  no_slash (name program) = true ->
  results_ready m1 (TestCase.test_results_dir self) ->
  returncode proc = 0 ->
  m1 !! TestCase.input self = Some (File di) ->
  m1 !! TestCase.scratch_output E self = Some (File do) ->
  dirname (TestCase.input self) ≠ TestCase.test_results_dir self ->
  dirname (TestCase.scratch_output E self) ≠ TestCase.test_results_dir self ->
  grows m1 (<[to_output := File do]> (<[to_input := File di]> m3))
  ∧ TestCase.run E self program true w =
      bind (TestCase.drain E) (fun _ => ret self)
        (World (<[to_output := File do]> (<[to_input := File di]> m3))
               (trace w ++ [EExec args] ++ stream_writes self program proc
                  ++ (if TestCase.status self
                      then [ELog (TestCase.logger self) INFO
                              (TestCase.pass_line self "")]
                      else [])
                  ++ copy_back E self)).
Proof.
  intros args proc m1 m3 to_input to_output Hargv Hprog Hready Hrc Hi Ho Hni Hno.
  destruct (TestCase_run_streams E self program true w opts
              Hargv Hprog Hready) as [Hg3 Hrun].
  fold args proc m1 in Hrun, Hg3. fold m3 in Hrun, Hg3. rewrite Hrun.
  apply Z.eqb_eq in Hrc. rewrite Hrc. cbn [negb].
  set (t3 := trace w ++ [EExec args] ++ stream_writes self program proc).
  set (passed := if TestCase.status self
                 then [ELog (TestCase.logger self) INFO (TestCase.pass_line self "")]
                 else []).
  assert (when (TestCase.status self) (TestCase.test_pass self "") (World m3 t3)
          = Ok tt (World m3 (t3 ++ passed))) as Hpass.
  { unfold passed. destruct (TestCase.status self); simpl; [done|].
    unfold ret. by rewrite app_nil_r. }
  rewrite (bind_Ok _ _ _ _ _ Hpass). cbn [when].
  (* the input *)
  assert (results_ready m3 (TestCase.test_results_dir self)) as Hready3
    by (apply (results_ready_same_dirs m1); [apply Hg3|done]).
  pose proof (proj1 (results_ready_spec _ _) Hready3) as [Hd3 Hsub3].
  assert (m3 !! TestCase.input self = Some (File di)) as Hi3.
  { unfold m3. by rewrite streams_outside. }
  assert (m3 !! TestCase.scratch_output E self = Some (File do)) as Ho3.
  { unfold m3. by rewrite streams_outside. }
  pose proof (grows_insert_file m3 to_input di (Hsub3 _)) as Hg4.
  set (m4 := <[to_input := File di]> m3) in *.
  (* the output *)
  assert (results_ready m4 (TestCase.test_results_dir self)) as Hready4
    by (apply (results_ready_same_dirs m3); [apply Hg4|done]).
  pose proof (proj1 (results_ready_spec _ _) Hready4) as [Hd4 Hsub4].
  assert (m4 !! TestCase.scratch_output E self = Some (File do)) as Ho4.
  { unfold m4. rewrite lookup_insert_ne; [done|].
    intros Heq. rewrite <- Heq in Hno. unfold to_input in Hno.
    by rewrite dirname_snoc in Hno. }
  pose proof (grows_insert_file m4 to_output do (Hsub4 _)) as Hg5.
  assert (bind (shutil_copy (TestCase.input self) (TestCase.test_results_dir self))
               (fun _ => shutil_copy (TestCase.scratch_output E self)
                                     (TestCase.test_results_dir self))
               (World m3 (t3 ++ passed))
          = Ok tt (World (<[to_output := File do]> m4)
                         ((t3 ++ passed) ++ copy_back E self))) as Hcopies.
  { rewrite (bind_Ok _ _ _ _ _
      (shutil_copy_ok _ _ di (World m3 (t3 ++ passed)) Hd3 Hi3 Hni (Hsub3 _))).
    cbn [fs trace]. fold to_input. fold m4.
    rewrite (shutil_copy_ok _ _ do (World m4 _) Hd4 Ho4 Hno (Hsub4 _)).
    cbn [fs trace]. fold to_output. unfold copy_back. fold to_input to_output.
    by rewrite <- !app_assoc. }
  rewrite (bind_Ok _ _ _ _ _ Hcopies). split.
  - eapply grows_trans; [exact Hg3|]. eapply grows_trans; [exact Hg4|exact Hg5].
  - unfold t3. by rewrite <- !app_assoc.
Qed.

Lemma copies_copy_back (E : env) (self : TestCase.t) :
  copies (copy_back E self) =
    [(TestCase.input self,
      TestCase.test_results_dir self ++ [name (TestCase.input self)]);
     (TestCase.scratch_output E self,
      TestCase.test_results_dir self ++ [name (TestCase.scratch_output E self)])].
Proof. reflexivity. Qed.

(** C6 (as amended). With copy-back on, a test case whose program returned 0
    copies two files into its result directory, first its input file and
    then the output file from the scratch directory, each under its own
    name: when [TestCase.run] returns, the result directory holds the
    output with the content the program gave it and, provided the name of
    the input is not that of the output, the input with its content; every
    other entry of the result directory is as the stream files left it (log
    files apart, which gain the PASS line).  A test case whose program
    returned anything else copies nothing: no entry of its result directory
    changes but the stream files (and the log). *)
Theorem copy_back_of_passed_tests (E : env) (self : TestCase.t)
    (program : path) (w : world) (opts : list string) :
  let args := TestCase.command E self program ++ opts in
  let proc := (subprocess_run E args (fs w)).1 in
  let m1 := (subprocess_run E args (fs w)).2 in
  let m3 := with_stream (stderr proc) (TestCase.artifact self program "stderr")
              (with_stream (stdout proc) (TestCase.artifact self program "stdout")
                 m1) in
  let to_input := TestCase.test_results_dir self ++ [name (TestCase.input self)] in
  let to_output :=
    TestCase.test_results_dir self ++ [name (TestCase.scratch_output E self)] in
  TestCase.status self = true ->
  argv (TestCase.options self) = Some opts ->
  no_slash (name program) = true ->
  results_ready m1 (TestCase.test_results_dir self) ->
  has_magic (path_str (WORK_DIR E)) = false ->
  TestCase.test_results_dir self ≠ WORK_DIR E ->
  (returncode proc = 0 -> flat m1 (WORK_DIR E)) ->
  (returncode proc = 0 ->
     isfile m1 (TestCase.input self) = true
     ∧ isfile m1 (TestCase.scratch_output E self) = true
     ∧ dirname (TestCase.input self) ≠ TestCase.test_results_dir self
     ∧ dirname (TestCase.scratch_output E self) ≠ TestCase.test_results_dir self) ->
  ∃ self' w',
    TestCase.run E self program true w = Ok self' w'
    ∧ TestCase.status self' = (returncode proc =? 0)
    ∧ copies (trace w') =
        copies (trace w) ++
        (if TestCase.status self' then
           [(TestCase.input self, to_input);
            (TestCase.scratch_output E self, to_output)]
         else [])
    ∧ (returncode proc = 0 ->
         fs w' !! to_output = m1 !! TestCase.scratch_output E self
         ∧ (name (TestCase.input self) ≠ name (TestCase.scratch_output E self) ->
              fs w' !! to_input = m1 !! TestCase.input self)
         ∧ ∀ q, dirname q = TestCase.test_results_dir self ->
                q ≠ to_input -> q ≠ to_output -> is_log q = false ->
                fs w' !! q = m3 !! q)
    ∧ (returncode proc ≠ 0 ->
         ∀ q, dirname q = TestCase.test_results_dir self -> is_log q = false ->
              fs w' !! q = m3 !! q).
Proof.
  intros args proc m1 m3 to_input to_output
    Hst Hargv Hprog Hready _ Hscratch Hflat Hcopy.
  destruct (returncode proc =? 0) eqn:Hrc.
  - (* the program returned 0 *)
    apply Z.eqb_eq in Hrc. specialize (Hflat Hrc).
    destruct (Hcopy Hrc) as (Hi & Ho & Hni & Hno).
    apply isfile_true in Hi as [di Hi]. apply isfile_true in Ho as [do Ho].
    destruct (TestCase_run_copied E self program w opts di do
                Hargv Hprog Hready Hrc Hi Ho Hni Hno) as [Hg Hrun].
    fold args proc m1 in Hg, Hrun. fold m3 in Hg, Hrun.
    fold to_input to_output in Hg, Hrun.
    set (w5 := World _ _) in Hrun.
    destruct (drain_frame E w5) as (w' & removed & Hdrain & Htr & Hkeep).
    { apply (flat_same_dirs m1); [apply Hg|done]. }
    rewrite (bind_Ok _ _ _ _ _ Hdrain) in Hrun. unfold ret in Hrun.
    exists self, w'. split; [exact Hrun|]. split; [exact Hst|]. split.
    { rewrite Htr. unfold w5. cbn [trace]. rewrite Hst.
      rewrite !copies_app, copies_stream_writes, copies_removes,
        copies_copy_back.
      cbn [copies app]. by rewrite app_nil_r. }
    split; [|done].
    intros _.
    assert (∀ q, dirname q = TestCase.test_results_dir self ->
                 fs w' !! q = fs w5 !! q) as Hin.
    { intros q Hq. apply Hkeep. left. by rewrite Hq. }
    split; [|split].
    + rewrite Hin by apply dirname_snoc. unfold w5. cbn [fs].
      by rewrite lookup_insert_eq.
    + intros Hne. rewrite Hin by apply dirname_snoc. unfold w5. cbn [fs].
      rewrite lookup_insert_ne.
      * by rewrite lookup_insert_eq.
      * unfold to_input, to_output. intros Heq. apply app_inv_head in Heq.
        injection Heq as Heq. by apply Hne.
    + intros q Hq Hqi Hqo _. rewrite (Hin q Hq). unfold w5. cbn [fs].
      by rewrite !lookup_insert_ne.
  - (* the program returned something else *)
    destruct (TestCase_run_streams E self program true w opts
                Hargv Hprog Hready) as [_ Hrun].
    fold args proc m1 in Hrun. fold m3 in Hrun.
    rewrite Hrc in Hrun. cbn [negb] in Hrun.
    unfold TestCase.test_fail, bind, emit, ret in Hrun. cbn [fs trace] in Hrun.
    eexists. eexists. split; [exact Hrun|]. cbn [fs trace].
    split; [done|]. split.
    { cbn [TestCase.set_status TestCase.status].
      rewrite !copies_app, copies_stream_writes. cbn [copies app].
      by rewrite !app_nil_r. }
    split; [intros Heq; apply Z.eqb_neq in Hrc; done|]. done.
Qed.

(** C3 (what the code does). When the program returns a code other than 0,
    [TestCase.run] returns right after logging the failure: every regular
    file the program left in the scratch directory is still there, so the
    scratch directory is not drained. *)
Theorem failed_test_leaves_scratch (E : env) (self : TestCase.t)
    (program : path) (copyback : bool) (w : world) (opts : list string)
    (x : string) :
  let args := TestCase.command E self program ++ opts in
  let proc := (subprocess_run E args (fs w)).1 in
  let m1 := (subprocess_run E args (fs w)).2 in
  argv (TestCase.options self) = Some opts ->
  no_slash (name program) = true ->
  results_ready m1 (TestCase.test_results_dir self) ->
  returncode proc ≠ 0 ->
  hidden x = false ->
  isfile m1 (WORK_DIR E ++ [x]) = true ->
  ∃ self' w',
    TestCase.run E self program copyback w = Ok self' w'
    ∧ isfile (fs w') (WORK_DIR E ++ [x]) = true
    ∧ ¬ drained (fs w') (WORK_DIR E).
Proof.
  intros args proc m1 Hargv Hprog Hready Hrc Hx Hfile.
  destruct (TestCase_run_ok E self program copyback w opts Hargv Hprog Hready)
    as (w' & tail & Hrun & _ & _ & Htail); try done.
  fold args proc m1 in Hrun, Htail.
  apply Z.eqb_neq in Hrc. rewrite Hrc in Htail. destruct Htail as [Hg _].
  eexists. exists w'. split; [exact Hrun|].
  assert (isfile (fs w') (WORK_DIR E ++ [x]) = true) as Hf by (by apply Hg).
  split; [done|]. intros Hdr. specialize (Hdr x Hx).
  unfold isfile in Hf. by rewrite Hdr in Hf.
Qed.

(** ** Running a suite *)

Lemma run_each_status (E : env) (todo : list TestCase.t) (program : path)
    (copyback : bool) :
  ∀ st w r w',
    TestSuite.run_each E todo program copyback st w = Ok r w' ->
    r.2 = forallb TestCase.status r.1 && st
    ∧ List.length r.1 = List.length todo.
Proof.
  induction todo as [|test rest IH]; intros st w r w' Hrun; simpl in Hrun.
  - unfold ret in Hrun. by inversion Hrun.
  - unfold bind in Hrun.
    destruct (TestCase.run E test program copyback w) as [test' w1|]; [|done].
    destruct (TestSuite.run_each E rest program copyback
                (TestCase.status test' && st) w1) as [r1 w2|] eqn:Hrest; [|done].
    unfold ret in Hrun. inversion Hrun; subst. simpl.
    destruct (IH _ _ _ _ Hrest) as [-> ->].
    split; [|done]. by rewrite andb_assoc, (andb_comm (TestCase.status test')).
Qed.

Lemma run_each_app (E : env) (l1 l2 : list TestCase.t) (program : path)
    (copyback : bool) :
  ∀ st w r w',
    TestSuite.run_each E (l1 ++ l2) program copyback st w = Ok r w' ->
    ∃ r1 w1 r2,
      TestSuite.run_each E l1 program copyback st w = Ok r1 w1
      ∧ TestSuite.run_each E l2 program copyback r1.2 w1 = Ok r2 w'
      ∧ r = (r1.1 ++ r2.1, r2.2).
Proof.
  induction l1 as [|test l1 IH]; intros st w r w' Hrun; simpl in *.
  - exists ([], st), w, r. unfold ret. simpl. by destruct r.
  - unfold bind in *.
    destruct (TestCase.run E test program copyback w) as [test' w1|]; [|done].
    destruct (TestSuite.run_each E (l1 ++ l2) program copyback
                (TestCase.status test' && st) w1) as [r' w2|] eqn:Hrest; [|done].
    unfold ret in Hrun. inversion Hrun; subst.
    destruct (IH _ _ _ _ Hrest) as (r1 & w1' & r2 & Hr1 & Hr2 & ->).
    rewrite Hr1. unfold ret. simpl.
    exists (test' :: r1.1, r1.2), w1', r2. done.
Qed.

(** C10. Split the loop of [TestSuite.run] at any point: the status it has
    there implies the status it started with, the status it ends with
    implies the status it has there, and once a test that was run has
    failed the status is false there and at the end. *)
Theorem suite_status_never_recovers (E : env) (l1 l2 : list TestCase.t)
    (program : path) (copyback : bool) (st : bool) (w w' : world)
    (r : list TestCase.t * bool) :
  TestSuite.run_each E (l1 ++ l2) program copyback st w = Ok r w' ->
  ∃ r1 w1 r2,
    TestSuite.run_each E l1 program copyback st w = Ok r1 w1
    ∧ TestSuite.run_each E l2 program copyback r1.2 w1 = Ok r2 w'
    ∧ r = (r1.1 ++ r2.1, r2.2)
    ∧ (r1.2 = true -> st = true)
    ∧ (r2.2 = true -> r1.2 = true)
    ∧ (∀ test, test ∈ r1.1 -> TestCase.status test = false ->
         r1.2 = false ∧ r2.2 = false).
Proof.
  intros Hrun. destruct (run_each_app _ _ _ _ _ _ _ _ _ Hrun)
    as (r1 & w1 & r2 & Hr1 & Hr2 & ->).
  exists r1, w1, r2. repeat split; try done.
  - destruct (run_each_status _ _ _ _ _ _ _ _ Hr1) as [-> _].
    intros H. by apply andb_prop in H as [_ ?].
  - destruct (run_each_status _ _ _ _ _ _ _ _ Hr2) as [-> _].
    intros H. by apply andb_prop in H as [_ ?].
  - destruct (run_each_status _ _ _ _ _ _ _ _ Hr1) as [-> _].
    apply andb_false_intro1, not_true_is_false. intros Hall.
    rewrite forallb_forall in Hall. apply list_elem_of_In, Hall in H.
    congruence.
  - destruct (run_each_status _ _ _ _ _ _ _ _ Hr2) as [-> _].
    destruct (run_each_status _ _ _ _ _ _ _ _ Hr1) as [-> _].
    apply andb_false_intro2, andb_false_intro1, not_true_is_false.
    intros Hall.
    rewrite forallb_forall in Hall. apply list_elem_of_In, Hall in H.
    congruence.
Qed.

Lemma runnable_same_dirs (m m' : gmap path node) (test : TestCase.t) :
  same_dirs m m' -> runnable m test -> runnable m' test.
Proof.
  intros Hs [Hr Ho]. split; [by apply (results_ready_same_dirs m)|done].
Qed.

Lemma run_each_ok (E : env) (program : path) (copyback : bool) :
  no_slash (name program) = true ->
  (∀ args m, same_dirs m (subprocess_run E args m).2) ->
  ∀ todo st w,
    Forall (runnable (fs w)) todo ->
    flat (fs w) (WORK_DIR E) ->
    (copyback = true -> Forall (copyable E program) todo) ->
    ∃ r w',
      TestSuite.run_each E todo program copyback st w = Ok r w'
      ∧ same_dirs (fs w) (fs w')
      ∧ launches (trace w') =
          launches (trace w) ++ map (invocation E program) todo.
Proof.
  intros Hprog Horacle.
  induction todo as [|test rest IH]; intros st w Hrun Hflat Hcopy; simpl.
  - exists ([], st), w. unfold ret. rewrite app_nil_r.
    split; [done|]. split; [apply same_dirs_refl|done].
  - apply Forall_cons in Hrun as [[Hready [opts Hopts]] Hrest].
    assert (invocation E program test = TestCase.command E test program ++ opts)
      as Hinv by (unfold invocation; by rewrite Hopts).
    pose proof (Horacle (TestCase.command E test program ++ opts) (fs w)) as Hs1.
    destruct (TestCase_run_ok E test program copyback w opts) as
      (w1 & tail & Hrun1 & Hs2 & Htr & Htail); try done.
    { by apply (results_ready_same_dirs (fs w)). }
    { intros _. by apply (flat_same_dirs (fs w)). }
    { intros Hrc ->. specialize (Hcopy eq_refl).
      apply Forall_cons in Hcopy as [(Hni & Hno & Hfiles) _].
      specialize (Hfiles (fs w)). rewrite Hinv in Hfiles.
      destruct (Hfiles Hrc). done. }
    rewrite (bind_Ok _ _ _ _ _ Hrun1).
    pose proof (same_dirs_trans _ _ _ Hs1 Hs2) as Hs.
    set (test' := if returncode _ =? 0 then test else _) in *.
    destruct (IH (TestCase.status test' && st) w1) as (r & w' & Hrun2 & Hs3 & Hl).
    { eapply Forall_impl; [exact Hrest|]. intros t. by apply runnable_same_dirs. }
    { by apply (flat_same_dirs (fs w)). }
    { intros Hc. specialize (Hcopy Hc). by apply Forall_cons in Hcopy as [_ ?]. }
    rewrite (bind_Ok _ _ _ _ _ Hrun2). unfold ret.
    eexists. exists w'. split; [done|].
    split; [by eapply same_dirs_trans|].
    rewrite Hl, Htr, !launches_app, launches_stream_writes, Hinv. simpl.
    assert (launches tail = []) as ->.
    { destruct (returncode _ =? 0).
      - destruct Htail as [_ [removed ->]].
        rewrite !launches_app, launches_removes.
        destruct (TestCase.status test), copyback; done.
      - by destruct Htail as [_ ->]. }
    by rewrite <- !app_assoc.
Qed.

Lemma is_file_eq (p : path) (w : world) : is_file p w = Ok (isfile (fs w) p) w.
Proof. reflexivity. Qed.

(** C4 (as amended). A suite with status true, run against a target program
    that exists, runs its tests in the order of its test list, one launch
    each, and ends with the conjunction of the statuses of its tests as its
    status; with no test at all that status is true. *)
Theorem suite_status_is_conjunction (E : env) (self : TestSuite.t)
    (program : path) (copyback : bool) (w : world) :
  TestSuite.status self = true ->
  isfile (fs w) program = true ->
  no_slash (name program) = true ->
  (∀ args m, same_dirs m (subprocess_run E args m).2) ->
  Forall (runnable (fs w)) (TestSuite.tests self) ->
  flat (fs w) (WORK_DIR E) ->
  (copyback = true -> Forall (copyable E program) (TestSuite.tests self)) ->
  ∃ self' w',
    TestSuite.run E self program copyback w = Ok self' w'
    ∧ TestSuite.status self' = forallb TestCase.status (TestSuite.tests self')
    ∧ launches (trace w') =
        launches (trace w) ++ map (invocation E program) (TestSuite.tests self)
    ∧ (TestSuite.tests self = [] -> TestSuite.status self' = true).
Proof.
  intros Hst Hfile Hprog Horacle Hrun Hflat Hcopy.
  destruct (run_each_ok E program copyback Hprog Horacle
              (TestSuite.tests self) (TestSuite.status self) w Hrun Hflat Hcopy)
    as (r & w1 & Hloop & _ & Hl).
  destruct (run_each_status _ _ _ _ _ _ _ _ Hloop) as [Hr Hlen].
  unfold TestSuite.run.
  rewrite (bind_Ok _ _ _ _ _ (is_file_eq program w)), Hfile, Hst. simpl.
  rewrite Hst in Hloop. rewrite (bind_Ok _ _ _ _ _ Hloop).
  rewrite Hst, andb_true_r in Hr.
  destruct r as [ts st']. simpl in *.
  exists (TestSuite.set_status st' (TestSuite.set_tests ts self)).
  destruct st';
    unfold bind, TestSuite.suite_fail, TestSuite.suite_pass, emit, ret; simpl;
    eexists; (split; [reflexivity|]); simpl;
    (split; [done|]); rewrite launches_app, Hl; simpl; rewrite app_nil_r;
    (split; [done|]); intros Hnil; rewrite Hr; rewrite Hnil in Hlen;
    by destruct ts.
Qed.

(** ** Paths and their strings *)

Lemma split_slash_nonempty (s : string) : split_slash s ≠ [].
Proof.
  induction s as [|c s IH]; [done|]. simpl.
  destruct (Ascii.eqb c "/"); [done|]. by destruct (split_slash s).
Qed.

Lemma split_slash_app (a b : string) :
  split_slash (a +:+ "/" +:+ b) = split_slash a ++ split_slash b.
Proof.
  induction a as [|c a IH]; [done|]. simpl.
  destruct (Ascii.eqb c "/"); [by rewrite IH|]. rewrite IH.
  pose proof (split_slash_nonempty a). by destruct (split_slash a).
Qed.

Lemma parts_app (a b : string) : parts (a +:+ "/" +:+ b) = parts a ++ parts b.
Proof. unfold parts. by rewrite split_slash_app, List.filter_app. Qed.

Lemma parts_plain (c : string) : plain c = true -> parts c = [c].
Proof.
  intros H. apply andb_prop in H as [Hs Hk]. unfold parts.
  rewrite (split_no_slash c Hs). simpl. by rewrite Hk.
Qed.

Lemma parts_concat (p : path) :
  clean_path p = true -> parts (String.concat "/" p) = p.
Proof.
  induction p as [|c p IH]; [done|]. intros H. simpl in H.
  apply andb_prop in H as [Hc Hp]. destruct p as [|c' p].
  - simpl. by apply parts_plain.
  - change (String.concat "/" (c :: c' :: p))
      with (c +:+ "/" +:+ String.concat "/" (c' :: p)).
    by rewrite parts_app, (parts_plain c Hc), (IH Hp).
Qed.

Lemma parts_path_str (p : path) : clean_path p = true -> parts (path_str p) = p.
Proof.
  intros H. unfold path_str.
  change ("/" +:+ String.concat "/" p) with ("" +:+ "/" +:+ String.concat "/" p).
  by rewrite parts_app, (parts_concat p H).
Qed.

Lemma plain_with_suffix (c suffix : string) :
  no_slash c = true -> no_slash suffix = true ->
  (2 <= String.length suffix)%nat -> plain (c +:+ suffix) = true.
Proof.
  intros Hc Hs Hl. unfold plain. rewrite no_slash_app, Hc, Hs. simpl.
  apply keep_part_long. rewrite length_append. lia.
Qed.

Lemma pjoin_plain' (p : path) (c : string) : plain c = true -> pjoin p c = p ++ [c].
Proof. intros H. apply andb_prop in H as [Hs Hk]. by apply pjoin_plain. Qed.

Lemma clean_path_snoc (p : path) (c : string) :
  clean_path p = true -> plain c = true -> clean_path (p ++ [c]) = true.
Proof.
  intros Hp Hc. unfold clean_path in *. rewrite forallb_app. simpl.
  by rewrite Hc, Hp.
Qed.

(** ** Constructing test cases *)

Lemma open_append_new (p : path) (w : world) :
  fs w !! p = None -> fs w !! dirname p = Some Dir ->
  open_append p w = Ok tt (World (<[p := File []]> (fs w)) (trace w)).
Proof.
  intros Hp Hd. unfold open_append, bind, get_fs, put_fs, parent_error. simpl.
  by rewrite Hp, Hd.
Qed.

Lemma TestCase_init_ok (suite_name test_name : string) (top : path)
    (input output : path) (opts : list value) (w : world) :
  wf_fs (fs w) -> clean_path top = true ->
  plain suite_name = true -> plain test_name = true ->
  fs w !! (top ++ [suite_name]) = Some Dir ->
  ∃ w' evs,
    TestCase.init suite_name test_name top input output opts w =
      Ok (TestCase.mk true suite_name test_name top input output opts
            (pjoin top suite_name) (pjoin (pjoin top suite_name) test_name)) w'
    ∧ wf_fs (fs w')
    ∧ fs w' !! (top ++ [suite_name]) = Some Dir
    ∧ trace w' = trace w ++ evs.
Proof.
  intros Hwf Htop Hs Ht Hd. unfold TestCase.init.
  set (self := TestCase.mk _ _ _ _ _ _ _ _ _).
  assert (TestCase.test_results_dir self = (top ++ [suite_name]) ++ [test_name])
    as Htd by (simpl; by rewrite !pjoin_plain').
  unfold TestCase.clean, TestCase.configure_logger, TestCase.log_file.
  rewrite Htd.
  destruct (cleandir_ok ((top ++ [suite_name]) ++ [test_name]) false w)
    as (w1 & Hrun & Hwf1 & [Hd1 Hempty] & Hframe & old & Htr & _); try done.
  { by destruct (top ++ [suite_name]). }
  { intros _. by rewrite dirname_snoc. }
  rewrite (bind_Ok _ _ _ _ _ Hrun).
  assert (parts (path_str ((top ++ [suite_name]) ++ [test_name]) +:+ "/"
                   +:+ TestCase.test_name self +:+ ".log")
          = ((top ++ [suite_name]) ++ [test_name]) ++ [test_name +:+ ".log"])
    as ->.
  { rewrite parts_app, parts_path_str.
    - f_equal. apply parts_plain, plain_with_suffix; try done.
      + by apply andb_prop in Ht as [? _].
      + simpl. lia.
    - by repeat apply clean_path_snoc. }
  assert (fs w1 !! (((top ++ [suite_name]) ++ [test_name]) ++ [test_name +:+ ".log"])
          = None) as Hlog by (by apply Hempty).
  rewrite (bind_Ok _ _ _ _ _ (open_append_new _ w1 Hlog
             ltac:(by rewrite dirname_snoc))).
  unfold ret. eexists. exists (old ++ [EMkdir ((top ++ [suite_name]) ++ [test_name])]).
  split; [done|]. simpl. split; [|split].
  - apply wf_insert_file; [done|by rewrite Hlog|by rewrite dirname_snoc].
  - rewrite lookup_insert_ne.
    + rewrite Hframe; [done|]. intros Hpre. by apply prefix_snoc_not in Hpre.
    + intros Heq. apply (f_equal (@List.length string)) in Heq.
      rewrite !length_app in Heq. simpl in Heq. lia.
  - by rewrite Htr.
Qed.

(** ** Configuring a suite *)



Lemma configure_tests_missing (E : env) (self : TestSuite.t) (w : world) :
  isfile (fs w) (TestSuite.config_file E self) = false ->
  TestSuite.configure_tests E self w =
    Ok self (World (fs w)
               (trace w ++
                  [ELog (TestSuite.logger self) ERROR
                     (TestSuite.missing_msg (TestSuite.config_file E self));
                   ELog (TestSuite.logger self) INFO (TestSuite.fail_line self)])).
Proof.
  intros Hf. unfold TestSuite.configure_tests.
  rewrite (bind_Ok _ _ _ _ _ (is_file_eq _ w)), Hf. simpl.
  unfold bind, TestSuite.suite_fail_msg, bind, emit, ret. simpl.
  by rewrite <- app_assoc.
Qed.

(** C1 (what the code does). For a suite whose configuration file does not
    exist, [configure_tests] logs the error and the FAIL line and constructs
    no test, but leaves the status of the suite true; [run] against a target
    program that exists then launches nothing, logs the PASS line and
    returns the suite with status true. *)
Theorem missing_config_suite_ends_passed (E : env) (self : TestSuite.t)
    (program : path) (copyback : bool) (w : world) :
  TestSuite.status self = true ->
  TestSuite.tests self = [] ->
  isfile (fs w) (TestSuite.config_file E self) = false ->
  ∃ w1,
    TestSuite.configure_tests E self w = Ok self w1
    ∧ ∀ w2, isfile (fs w2) program = true ->
        TestSuite.run E self program copyback w2 =
          Ok self (World (fs w2)
                     (trace w2 ++
                        [ELog (TestSuite.logger self) INFO
                           (TestSuite.pass_line self)]))
        ∧ TestSuite.status self = true.
Proof.
  intros Hst Hnil Hmissing. eexists. split.
  { by apply configure_tests_missing. }
  intros w2 Hfile. split; [|done]. unfold TestSuite.run.
  rewrite (bind_Ok _ _ _ _ _ (is_file_eq _ w2)), Hfile, Hst, Hnil. simpl.
  unfold bind, ret, TestSuite.suite_pass, emit. simpl.
  f_equal. destruct self. simpl in *. by subst.
Qed.

(** * The properties at work in the concrete scenario *)

Lemma copying_program_same_dirs (code : Z) (args : list string)
    (m : gmap path node) :
  same_dirs m (copying_program code args m).2.
Proof.
  unfold copying_program.
  destruct args as [|a0 [|a1 [|i [|o rest]]]]; try apply same_dirs_refl.
  destruct (m !! parts i) as [[d|]|]; try apply same_dirs_refl.
  destruct (isdir m (parts o)) eqn:Ho; [apply same_dirs_refl|]. simpl.
  apply grows_insert_file. intros Hd. apply isdir_true in Hd. congruence.
Qed.


Lemma mkdir_by_cases_witness :
  ∃ w', mkdir ["h"; "prog.py"] false demo_world = Ok tt w'
    ∧ fs w' = <[["h"; "prog.py"] := Dir]> demo_fs
    ∧ empty_dir (fs w') ["h"; "prog.py"].
Proof.
  pose proof (mkdir_by_cases ["h"; "prog.py"] false demo_world) as H.
  assert (fs demo_world !! ["h"; "prog.py"] = Some (File (bytes_of "copy")))
    as Hl by by_computation.
  rewrite Hl in H. destruct H as (w' & Hrun & Hfs & Hempty & _).
  - by_computation.
  - discriminate.
  - intros H. discriminate.
  - exists w'. split; [exact Hrun|]. split; [exact Hfs|exact Hempty].
Defined.

Lemma status_follows_exit_code_witness :
  ∃ self' w',
    TestCase.run (demo_env 3) demo_test demo_program true (demo_constructed "s")
      = Ok self' w'
    ∧ TestCase.status self' = false
    ∧ last (trace w') =
        Some (ELog "__main___s_t1" INFO
                ("t1 [" +:+ Color.FAIL +:+ "FAIL" +:+ Color.ENDC
                   +:+ "] /h/prog.py returned with code 3")).
Proof.
  destruct (status_follows_exit_code (demo_env 3) demo_test demo_program true
              (demo_constructed "s") ["--option"])
    as (self' & w' & Hrun & Hst & Hfail).
  - by_computation.
  - by_computation.
  - by_computation.
  - by_computation.
  - never.
  - never.
  - exists self', w'. split; [exact Hrun|]. split.
    + rewrite Hst. by_computation.
    + rewrite Hfail by by_computation. by_computation.
Defined.

(** C6 (as stated) fails: the one test of this suite has the input [a.out],
    so its output is [a.out] too.  The test passes and both copies are made,
    onto the same file of the result directory: it ends up with the output,
    and the result directory holds that file and the log, not the input. *)
Lemma same_name_copy_is_overwritten :
  match main out_env demo_program ["r"] ["s"] true out_world with
  | Ok [suite] w' =>
      map TestCase.status (TestSuite.tests suite) = [true]
      ∧ copies (trace w') =
          [(["h"; "inputs"; "a.out"], ["r"; "s"; "t1"; "a.out"]);
           (["h"; "__workdir"; "a.out"], ["r"; "s"; "t1"; "a.out"])]
      ∧ fs w' !! ["h"; "inputs"; "a.out"] = Some (File (bytes_of "source"))
      ∧ fs w' !! ["r"; "s"; "t1"; "a.out"] = Some (File (bytes_of "result"))
      ∧ glob_star (fs w') ["r"; "s"; "t1"]
          ≡ₚ [["r"; "s"; "t1"; "a.out"]; ["r"; "s"; "t1"; "t1.log"]]
  | _ => False
  end.
Proof. vm_compute. repeat split. first [reflexivity|apply perm_swap]. Qed.

Lemma copy_back_of_passed_tests_witness :
  ∃ self' w',
    TestCase.run stamping_env demo_test demo_program true (demo_constructed "s")
      = Ok self' w'
    ∧ TestCase.status self' = true
    ∧ copies (trace w') =
        [(["h"; "inputs"; "a.txt"], ["r"; "s"; "t1"; "a.txt"]);
         (["h"; "__workdir"; "a.out"], ["r"; "s"; "t1"; "a.out"])]
    ∧ fs w' !! ["r"; "s"; "t1"; "a.txt"] = Some (File (bytes_of "hello"))
    ∧ fs w' !! ["r"; "s"; "t1"; "a.out"] = Some (File (bytes_of "result")).
Proof.
  destruct (copy_back_of_passed_tests stamping_env demo_test demo_program
              (demo_constructed "s") ["--option"])
    as (self' & w' & Hrun & Hst & Hcopies & Hfiles & _).
  - by_computation.
  - by_computation.
  - by_computation.
  - by_computation.
  - by_computation.
  - by_computation.
  - intros _. by_computation.
  - intros _. repeat split; by_computation.
  - exists self', w'. split; [exact Hrun|].
    assert (TestCase.status self' = true) as Hpass
      by (rewrite Hst; by_computation).
    split; [exact Hpass|]. split; [rewrite Hcopies, Hpass; by_computation|].
    destruct Hfiles as (Hout & Hin & _); [by_computation|].
    split.
    + etransitivity; [apply Hin; by_computation|]. by_computation.
    + etransitivity; [exact Hout|]. by_computation.
Defined.

Lemma failed_test_leaves_scratch_witness :
  ∃ self' w',
    TestCase.run (demo_env 1) demo_test demo_program false (demo_constructed "s")
      = Ok self' w'
    ∧ isfile (fs w') (WORK_DIR (demo_env 1) ++ ["a.out"]) = true
    ∧ ¬ drained (fs w') (WORK_DIR (demo_env 1)).
Proof.
  apply (failed_test_leaves_scratch (demo_env 1) demo_test demo_program false
           (demo_constructed "s") ["--option"] "a.out"); by_computation.
Defined.


Lemma demo_test_copyable (code : Z) :
  copyable (demo_env code) demo_program demo_test.
Proof.
  split; [by_computation|]. split; [by_computation|].
  intros m r. subst r.
  unfold invocation, TestCase.command, TestCase.scratch_output, WORK_DIR,
    demo_test, demo_env, demo_program.
  cbn -[copying_program isfile path_str].
  unfold copying_program.
  change (parts (path_str ["h"; "inputs"; "a.txt"])) with ["h"; "inputs"; "a.txt"].
  change (parts (path_str ["h"; "__workdir"; "a.out"]))
    with ["h"; "__workdir"; "a.out"].
  destruct (m !! ["h"; "inputs"; "a.txt"]) as [[d|]|] eqn:Hi;
    try (cbn; discriminate).
  destruct (isdir m ["h"; "__workdir"; "a.out"]); [cbn; discriminate|].
  cbn [fst snd returncode]. intros _. unfold isfile.
  rewrite lookup_insert_ne by discriminate. rewrite Hi.
  by rewrite lookup_insert_eq.
Qed.

Lemma suite_status_is_conjunction_witness :
  ∃ self' w',
    TestSuite.run (demo_env 0) (demo_suite "s") demo_program true
      (demo_constructed "s") = Ok self' w'
    ∧ TestSuite.status self' = forallb TestCase.status (TestSuite.tests self')
    ∧ launches (trace w') =
        [["python3"; "/h/prog.py"; "/h/inputs/a.txt"; "/h/__workdir/a.out";
          "--option"]].
Proof.
  destruct (suite_status_is_conjunction (demo_env 0) (demo_suite "s")
              demo_program true (demo_constructed "s"))
    as (self' & w' & Hrun & Hst & Hl & _).
  - by_computation.
  - by_computation.
  - by_computation.
  - intros args m. apply copying_program_same_dirs.
  - by_computation.
  - by_computation.
  - intros _. assert (TestSuite.tests (demo_suite "s") = [demo_test]) as ->
      by by_computation.
    constructor; [apply demo_test_copyable|constructor].
  - exists self', w'. split; [exact Hrun|]. split; [exact Hst|].
    rewrite Hl. by_computation.
Defined.

(** C4 (as stated) fails: the suite [empty] is configured without error
    from a file that declares no test, is run against a program that
    exists, ends with no test, and its status is true, not false. *)
Lemma suite_without_tests_passes :
  match main (demo_env 0) demo_program ["r"] ["empty"] false demo_world with
  | Ok [suite] w' =>
      TestSuite.tests suite = []
      ∧ TestSuite.status suite = true
      ∧ launches (trace w') = []
      ∧ last (trace w') =
          Some (ELog "__main___empty" INFO (TestSuite.pass_line suite))
  | _ => False
  end.
Proof. vm_compute. repeat split. Qed.

Lemma suite_status_never_recovers_witness :
  ∃ r1 w1 r2 w2,
    TestSuite.run_each (demo_env 0) [demo_first] demo_program false true
      (demo_constructed "two") = Ok r1 w1
    ∧ TestSuite.run_each (demo_env 0) [demo_second] demo_program false r1.2 w1
      = Ok r2 w2
    ∧ map TestCase.status r1.1 = [false] ∧ r1.2 = false
    ∧ map TestCase.status r2.1 = [true] ∧ r2.2 = false.
Proof.
  set (o := TestSuite.run_each (demo_env 0) ([demo_first] ++ [demo_second])
              demo_program false true (demo_constructed "two")).
  assert (o = Ok (value_of ([], true) o) (world_of o)) as H by by_computation.
  destruct (suite_status_never_recovers _ _ _ _ _ _ _ _ _ H)
    as (r1 & w1 & r2 & Hr1 & Hr2 & Heq & Hmono1 & Hmono2 & Hfail).
  exists r1, w1, r2, (world_of o).
  split; [exact Hr1|]. split; [exact Hr2|].
  assert (map TestCase.status (value_of ([], true) o).1 = [false; true]) as Hs
    by by_computation.
  assert (List.length r1.1 = 1%nat) as Hlen.
  { pose proof (run_each_status _ _ _ _ _ _ _ _ Hr1) as [_ Hl]. exact Hl. }
  rewrite Heq in Hs.
  cbn [fst] in Hs.
  rewrite map_app in Hs.
  destruct r1 as [[|test [|? ?]] st1]; try discriminate Hlen.
  cbn [fst snd map app] in *.
  injection Hs as Hst Hs2.
  destruct (Hfail test) as [Hf1 Hf2]; [left|exact Hst|].
  rewrite Hst. repeat split; assumption.
Defined.



Lemma missing_config_suite_ends_passed_witness :
  ∃ w1 w2,
    TestSuite.configure_tests (demo_env 0) (demo_blank "nope") (demo_cleaned "nope")
      = Ok (demo_blank "nope") w1
    ∧ TestSuite.run (demo_env 0) (demo_blank "nope") demo_program false w1
      = Ok (demo_blank "nope") w2
    ∧ TestSuite.status (demo_blank "nope") = true
    ∧ last (trace w2) =
        Some (ELog "__main___nope" INFO (TestSuite.pass_line (demo_blank "nope"))).
Proof.
  destruct (missing_config_suite_ends_passed (demo_env 0) (demo_blank "nope")
              demo_program false (demo_cleaned "nope"))
    as (w1 & Hconf & Hrun).
  1-3: by_computation.
  destruct (Hrun w1) as [Hrun1 Hst].
  { rewrite configure_tests_missing in Hconf by by_computation.
    injection Hconf as <-. by_computation. }
  eexists. eexists. split; [exact Hconf|]. split; [exact Hrun1|].
  split; [exact Hst|]. simpl. apply last_snoc.
Defined.

(** C1 at the failing input: the whole run for the suite [nope], which has
    no configuration file. *)
Lemma missing_config_run :
  match main (demo_env 0) demo_program ["r"] ["nope"] false demo_world with
  | Ok [suite] w' =>
      TestSuite.tests suite = []
      ∧ launches (trace w') = []
      ∧ TestSuite.status suite = true
      ∧ last (trace w') =
          Some (ELog "__main___nope" INFO (TestSuite.pass_line suite))
  | _ => False
  end.
Proof. vm_compute. repeat split. Qed.

(** * Further properties of the harness *)

Lemma match_color_plain (c : ascii) (s : string) :
  is_esc c = false -> match_color (String c s) = None.
Proof.
  intros H. unfold match_color. destruct s as [|b [|d1 t]]; try done.
  by rewrite H.
Qed.

Lemma strip_color_plain (a b : string) :
  no_esc a = true -> strip_color (a +:+ b) = a +:+ strip_color b.
Proof.
  unfold strip_color. induction a as [|c a IH]; [done|]. intros H.
  simpl in H. apply andb_prop in H as [Hc Ha]. apply negb_true_iff in Hc.
  change (String c a +:+ b) with (String c (a +:+ b)).
  cbn [strip_from]. rewrite (match_color_plain c _ Hc), (IH Ha). done.
Qed.

Lemma append_empty_r (s : string) : s +:+ "" = s.
Proof.
  induction s as [|c s IH]; [done|].
  change (String c s +:+ "") with (String c (s +:+ "")). by rewrite IH.
Qed.

Lemma strip_color_id (s : string) : no_esc s = true -> strip_color s = s.
Proof.
  intros H. pose proof (strip_color_plain s "" H) as Hp.
  change (strip_color "") with "" in Hp. by rewrite !append_empty_r in Hp.
Qed.

Lemma strip_color_code1 (d : ascii) (s : string) :
  is_digit d = true ->
  strip_color (String (ascii_of_nat 27) (String "[" (String d (String "m" s))))
  = strip_color s.
Proof.
  intros Hd. unfold strip_color. cbn [strip_from match_color].
  change (is_esc (ascii_of_nat 27)) with true. cbn [Ascii.eqb Bool.eqb andb].
  rewrite Hd. cbn [andb].
  assert (is_digit "m" = false) as -> by reflexivity. cbn [andb].
  reflexivity.
Qed.

Lemma strip_color_code2 (d1 d2 : ascii) (s : string) :
  is_digit d1 = true -> is_digit d2 = true ->
  strip_color
    (String (ascii_of_nat 27) (String "[" (String d1 (String d2 (String "m" s)))))
  = strip_color s.
Proof.
  intros H1 H2. unfold strip_color. cbn [strip_from match_color].
  change (is_esc (ascii_of_nat 27)) with true. cbn [Ascii.eqb Bool.eqb andb].
  rewrite H1, H2. cbn [andb Nat.pred]. reflexivity.
Qed.

Lemma strip_color_palette (c s : string) :
  c ∈ palette -> strip_color (c +:+ s) = strip_color s.
Proof.
  unfold palette. intros Hc.
  repeat (apply elem_of_cons in Hc as [->|Hc];
          [first [ by apply strip_color_code2 | by apply strip_color_code1 ]|]).
  by apply elem_of_nil in Hc.
Qed.

(** X1. The file formatter drops every colour code of the harness that
    follows colour-free text, keeps that text, and goes on with the rest. *)
Theorem strip_color_drops_palette (a c b : string) :
  no_esc a = true -> c ∈ palette ->
  strip_color (a +:+ c +:+ b) = a +:+ strip_color b.
Proof.
  intros Ha Hc. rewrite (strip_color_plain a _ Ha).
  by rewrite (strip_color_palette c b Hc).
Qed.

(** X2. A record sent through the handlers in the order [configure_logger]
    adds them reaches the console with its colours and the log file without
    them; were the file handler added first, the console would get the
    record the file formatter has already stripped.  Shown on the FAIL line of
    a test whose name and message hold no escape character. *)
Theorem console_keeps_colours_by_order (self : TestCase.t) (message : string) :
  no_esc (TestCase.test_name self) = true -> no_esc message = true ->
  let record := {| levelno := INFO; msg := TestCase.fail_line self message |} in
  let plain := TestCase.test_name self +:+ " [FAIL] " +:+ message in
  callHandlers [StreamHandler; FileHandler] record =
    [(StreamHandler, TestCase.fail_line self message); (FileHandler, plain)]
  ∧ callHandlers [FileHandler; StreamHandler] record =
    [(FileHandler, plain); (StreamHandler, plain)].
Proof.
  intros Hn Hm record plain.
  assert (strip_color (TestCase.fail_line self message) = plain) as Hplain.
  { unfold TestCase.fail_line, plain.
    rewrite (strip_color_plain _ _ Hn).
    rewrite (strip_color_plain " [" _ eq_refl).
    rewrite (strip_color_palette Color.FAIL) by (unfold palette; set_solver).
    rewrite (strip_color_plain "FAIL" _ eq_refl).
    rewrite (strip_color_palette Color.ENDC) by (unfold palette; set_solver).
    rewrite (strip_color_plain "] " _ eq_refl).
    by rewrite (strip_color_id _ Hm). }
  unfold callHandlers, handler_format, Formatter.format, ColorFormatter.format,
    record. cbn [fst snd levelno msg Formatter.FORMATS ColorFormatter.FORMATS].
  by rewrite Hplain.
Qed.

(** ** More on the workspace manager *)


(** X4. Where nothing is at [dir] and its parent is no directory, both
    [cleandir] and [mkdir] raise what [os.mkdir] raises there
    ([FileNotFoundError] without a parent, [NotADirectoryError] below a
    regular file) and leave the world as it was. *)
Theorem no_directory_without_parent (dir : path) (quiet : bool) (w : world) :
  fs w !! dir = None -> fs w !! dirname dir ≠ Some Dir ->
  let e := if isfile (fs w) (dirname dir)
           then NotADirectoryError else FileNotFoundError in
  cleandir dir quiet w = Raise e w ∧ mkdir dir quiet w = Raise e w.
Proof.
  intros Hn Hp e. subst e.
  unfold cleandir, mkdir, bind, is_file, is_dir, get_fs, ret,
    os_mkdir, bind, get_fs, parent_error, raise, isfile, isdir.
  destruct (fs w !! dirname dir) as [[d|]|] eqn:Hd; try done;
    repeat (simpl; rewrite ?Hn, ?Hd); done.
Qed.

Lemma os_mkdir_Ok (p : path) (w w' : world) :
  os_mkdir p w = Ok tt w' -> fs w' !! p = Some Dir.
Proof.
  unfold os_mkdir, bind, get_fs, put_fs, emit, raise. simpl.
  destruct (fs w !! p); [done|]. destruct (parent_error (fs w) p); [done|].
  intros H. injection H as <-. simpl. apply lookup_insert_eq.
Qed.

Lemma bind_inv {A B} (m : M A) (k : A -> M B) (w w' : world) (b : B) :
  bind m k w = Ok b w' -> ∃ a w1, m w = Ok a w1 ∧ k a w1 = Ok b w'.
Proof.
  unfold bind. destruct (m w) as [a w1|]; [|done]. intros H. by exists a, w1.
Qed.

Lemma cleandir_Ok (dir : path) (quiet : bool) (w w' : world) :
  cleandir dir quiet w = Ok tt w' -> fs w' !! dir = Some Dir.
Proof.
  unfold cleandir. intros H.
  apply bind_inv in H as (f & w1 & _ & H).
  apply bind_inv in H as ([] & w2 & _ & H).
  by apply os_mkdir_Ok in H.
Qed.

Lemma mkdir_Ok (dir : path) (quiet : bool) (w w' : world) :
  mkdir dir quiet w = Ok tt w' -> fs w' !! dir = Some Dir.
Proof.
  unfold mkdir. intros H.
  apply bind_inv in H as (f & w1 & _ & H).
  apply bind_inv in H as ([] & w2 & _ & H).
  apply bind_inv in H as (d & w3 & Hd & H).
  unfold is_dir, bind, get_fs, ret in Hd. simpl in Hd.
  injection Hd as <- <-. destruct (isdir (fs w2) dir) eqn:Hdir; simpl in H.
  - unfold ret in H. injection H as <-. by apply isdir_true.
  - by apply os_mkdir_Ok in H.
Qed.

(** X5. Once [cleandir] or [mkdir] has returned for a path, [mkdir] on that
    path does nothing at all, whatever its [quiet] flag: no change to the
    file system, no warning. *)
Theorem mkdir_after_success (dir : path) (quiet quiet' : bool) (w w1 : world) :
  cleandir dir quiet w = Ok tt w1 ∨ mkdir dir quiet w = Ok tt w1 ->
  mkdir dir quiet' w1 = Ok tt w1.
Proof.
  intros [H|H]; apply mkdir_dir.
  - by apply cleandir_Ok in H.
  - by apply mkdir_Ok in H.
Qed.

(** ** More on the options *)

(** X6. For [option] given as a string it is the emptiness of the string
    that decides: any non-empty string, ["false"] included, puts [--option]
    first in the list, the empty string does not. *)
Theorem string_option_counts_when_not_empty (contents : gmap string value)
    (s : string) :
  contents !! "option" = Some (VStr s) ->
  collect_options contents =
    (if String.eqb s "" then [] else [VStr "--option"])
    ++ collect_options (delete "option" contents).
Proof.
  intros H. unfold collect_options. rewrite H. simpl.
  rewrite lookup_delete_eq, lookup_delete_ne by done.
  destruct (String.eqb s ""); destruct (contents !! "parameter"); done.
Qed.

(** X7. The list [collect_options] returns can be handed to a subprocess
    exactly when [parameter] is absent or a string: a boolean [parameter]
    ends up in the list as it is. *)
Theorem options_launchable (contents : gmap string value) :
  is_Some (argv (collect_options contents)) <->
  ∀ b, contents !! "parameter" ≠ Some (VBool b).
Proof.
  unfold collect_options.
  destruct (contents !! "option") as [v|]; [destruct (truthy v)|];
    destruct (contents !! "parameter") as [[s|b]|]; simpl; split;
    try (intros _; by eauto); try (intros [? ?]; done);
    try (intros H; by destruct (H b)).
Qed.

(** X8. A test case whose options hold a boolean (a boolean [parameter] in
    the configuration) cannot be run: [TestCase.run] raises [TypeError]
    before it launches anything and leaves the world as it was. *)
Theorem boolean_parameter_stops_run (E : env) (self : TestCase.t)
    (contents : gmap string value) (b : bool) (program : path)
    (copyback : bool) (w : world) :
  TestCase.options self = collect_options contents ->
  contents !! "parameter" = Some (VBool b) ->
  TestCase.run E self program copyback w = Raise TypeError w.
Proof.
  intros Ho Hp. unfold TestCase.run, bind, launch.
  assert (argv (TestCase.options self) = None) as ->; [|done].
  rewrite Ho. unfold collect_options. rewrite Hp.
  destruct (contents !! "option") as [v|]; [destruct (truthy v)|]; done.
Qed.

(** ** More on running a test case *)

(** X9. A test whose program returns a code other than 0 changes the file
    system by the two stream files and by the line its logger appends to
    log files, and by nothing else: each captured stream that is not empty
    is written, as it is, to its file in the result directory of the test
    (standard output first), and every other path that is not a log file
    has the entry the program left. *)
Theorem failed_test_writes_streams_only (E : env) (self : TestCase.t)
    (program : path) (copyback : bool) (w : world) (opts : list string) :
  let args := TestCase.command E self program ++ opts in
  let proc := (subprocess_run E args (fs w)).1 in
  let m1 := (subprocess_run E args (fs w)).2 in
  argv (TestCase.options self) = Some opts ->
  no_slash (name program) = true ->
  results_ready m1 (TestCase.test_results_dir self) ->
  returncode proc ≠ 0 ->
  ∃ w',
    TestCase.run E self program copyback w = Ok (TestCase.set_status false self) w'
    ∧ (∀ q, is_log q = false ->
            fs w' !! q =
              with_stream (stderr proc) (TestCase.artifact self program "stderr")
                (with_stream (stdout proc)
                   (TestCase.artifact self program "stdout") m1) !! q)
    ∧ (stderr proc ≠ [] ->
         fs w' !! TestCase.artifact self program "stderr"
           = Some (File (stderr proc)))
    ∧ (stdout proc ≠ [] ->
         fs w' !! TestCase.artifact self program "stdout"
           = Some (File (stdout proc))).
Proof.
  intros args proc m1 Hargv Hprog Hready Hrc.
  destruct (TestCase_run_streams E self program copyback w opts
              Hargv Hprog Hready) as [_ Hrun].
  fold args proc m1 in Hrun. apply Z.eqb_neq in Hrc.
  rewrite Hrc in Hrun. cbn [negb] in Hrun.
  unfold TestCase.test_fail, bind, emit, ret in Hrun. cbn [fs trace] in Hrun.
  eexists. split; [exact Hrun|]. cbn [fs]. split; [done|].
  unfold with_stream. split.
  - intros He. rewrite (bool_decide_eq_false_2 _ He).
    apply lookup_insert_eq.
  - intros Ho. rewrite (bool_decide_eq_false_2 _ Ho).
    assert (TestCase.artifact self program "stderr"
            ≠ TestCase.artifact self program "stdout") as Hne.
    { rewrite !artifact_path by (done || (simpl; lia)).
      intros Heq. apply app_inv_head in Heq. injection Heq as Heq.
      revert Heq. clear. generalize (stem program).
      intros s. induction s as [|c s IH]; [done|].
      intros H. injection H as H. by apply IH. }
    destruct (bool_decide (stderr proc = [])).
    + apply lookup_insert_eq.
    + rewrite lookup_insert_ne by done. apply lookup_insert_eq.
Qed.

(** [TestCase.run] for a program that returned 0, up to the point where it
    drains the scratch directory. *)
Lemma TestCase_run_to_drain (E : env) (self : TestCase.t) (program : path)
    (copyback : bool) (w : world) (opts : list string) :
  let args := TestCase.command E self program ++ opts in
  let proc := (subprocess_run E args (fs w)).1 in
  let m1 := (subprocess_run E args (fs w)).2 in
  argv (TestCase.options self) = Some opts ->
  no_slash (name program) = true ->
  results_ready m1 (TestCase.test_results_dir self) ->
  returncode proc = 0 ->
  (copyback = true ->
     isfile m1 (TestCase.input self) = true
     ∧ isfile m1 (TestCase.scratch_output E self) = true
     ∧ dirname (TestCase.input self) ≠ TestCase.test_results_dir self
     ∧ dirname (TestCase.scratch_output E self) ≠ TestCase.test_results_dir self) ->
  ∃ w5,
    grows m1 (fs w5)
    ∧ (TestCase.status self = true ->
         ELog (TestCase.logger self) INFO (TestCase.pass_line self "")
           ∈ trace w5)
    ∧ TestCase.run E self program copyback w =
        bind (TestCase.drain E) (fun _ => ret self) w5.
Proof.
  intros args proc m1 Hargv Hprog Hready Hrc Hcopy.
  destruct (TestCase_run_streams E self program copyback w opts
              Hargv Hprog Hready) as [Hg3 Hrun].
  fold args proc m1 in Hrun, Hg3. rewrite Hrun.
  apply Z.eqb_eq in Hrc. rewrite Hrc. cbn [negb].
  set (m3 := with_stream _ _ _) in *. set (t3 := trace w ++ _).
  set (passed := if TestCase.status self
                 then [ELog (TestCase.logger self) INFO (TestCase.pass_line self "")]
                 else []).
  assert (when (TestCase.status self) (TestCase.test_pass self "") (World m3 t3)
          = Ok tt (World m3 (t3 ++ passed))) as Hpass.
  { unfold passed. destruct (TestCase.status self); simpl; [done|].
    unfold ret. by rewrite app_nil_r. }
  rewrite (bind_Ok _ _ _ _ _ Hpass).
  assert (TestCase.status self = true ->
          ELog (TestCase.logger self) INFO (TestCase.pass_line self "")
            ∈ t3 ++ passed) as Hlogged.
  { intros Hst. unfold passed. rewrite Hst. apply elem_of_app. right. left. }
  destruct copyback; simpl.
  - destruct (Hcopy eq_refl) as (Hi & Ho & Hni & Hno).
    destruct (copy_back_ok E self (World m3 (t3 ++ passed)))
      as (w5 & Hrun5 & Hg5 & Htr5); simpl; try done.
    + apply (results_ready_same_dirs m1); [apply Hg3|done].
    + by apply Hg3.
    + by apply Hg3.
    + rewrite (bind_Ok _ _ _ _ _ Hrun5). exists w5.
      split; [by eapply grows_trans|]. split; [|done].
      intros Hst. rewrite Htr5. simpl. apply elem_of_app. left. by apply Hlogged.
  - exists (World m3 (t3 ++ passed)).
    split; [exact Hg3|]. split; [exact Hlogged|reflexivity].
Qed.

Lemma TestCase_run_passed (E : env) (self : TestCase.t) (program : path)
    (copyback : bool) (w : world) (opts : list string) :
  let args := TestCase.command E self program ++ opts in
  let proc := (subprocess_run E args (fs w)).1 in
  let m1 := (subprocess_run E args (fs w)).2 in
  argv (TestCase.options self) = Some opts ->
  no_slash (name program) = true ->
  results_ready m1 (TestCase.test_results_dir self) ->
  returncode proc = 0 ->
  flat m1 (WORK_DIR E) ->
  (copyback = true ->
     isfile m1 (TestCase.input self) = true
     ∧ isfile m1 (TestCase.scratch_output E self) = true
     ∧ dirname (TestCase.input self) ≠ TestCase.test_results_dir self
     ∧ dirname (TestCase.scratch_output E self) ≠ TestCase.test_results_dir self) ->
  ∃ w',
    TestCase.run E self program copyback w = Ok self w'
    ∧ drained (fs w') (WORK_DIR E)
    ∧ ∀ q, isfile m1 q = true ->
           dirname q ≠ WORK_DIR E ∨ hidden (name q) = true ->
           isfile (fs w') q = true.
Proof.
  intros args proc m1 Hargv Hprog Hready Hrc Hflat Hcopy.
  destruct (TestCase_run_to_drain E self program copyback w opts
              Hargv Hprog Hready Hrc Hcopy) as (w5 & Hg & _ & Hrun).
  fold m1 in Hg. rewrite Hrun.
  assert (flat (fs w5) (WORK_DIR E)) as Hflat5
    by (apply (flat_same_dirs m1); [apply Hg|done]).
  pose proof (proj1 (flat_spec _ _) Hflat5) as Hf.
  assert (∀ p, p ∈ glob_star (fs w5) (WORK_DIR E) -> isfile (fs w5) p = true)
    as Hfiles.
  { intros p Hp. apply elem_of_glob_star in Hp as ([n Hn] & Hne & Hd & Hh).
    destruct (path_snoc p Hne) as (d' & x & ->).
    rewrite dirname_snoc in Hd. rewrite name_snoc in Hh. subst d'.
    apply isfile_true. destruct n as [data|]; [eauto|]. by apply Hf in Hn. }
  destruct (for_each_remove_ok _ (NoDup_glob_star (fs w5) (WORK_DIR E)) w5 Hfiles)
    as (w' & Hloop & _ & Hin & Hout).
  exists w'. split; [|split].
  - unfold TestCase.drain, bind, get_fs, ret. by rewrite Hloop.
  - intros x Hx.
    destruct (decide (WORK_DIR E ++ [x] ∈ glob_star (fs w5) (WORK_DIR E)))
      as [Hq|Hq]; [by apply Hin|].
    rewrite (Hout _ Hq). destruct (fs w5 !! (WORK_DIR E ++ [x])) eqn:Hl; [|done].
    exfalso. apply Hq, elem_of_glob_star.
    rewrite Hl, dirname_snoc, name_snoc. repeat split; eauto.
    by destruct (WORK_DIR E).
  - intros q Hq Hout'. unfold isfile. rewrite Hout.
    + by apply Hg.
    + intros Hin'. apply elem_of_glob_star in Hin' as (_ & _ & Hd & Hh).
      destruct Hout' as [?|Hhid]; [done|]. congruence.
Qed.

(** X10. When the path of the scratch directory has no character that
    [glob] reads as a pattern, a test whose program returns 0 leaves no
    entry in the scratch directory that [glob] lists: every regular file
    there whose name does not start with a dot is removed before
    [TestCase.run] returns. *)
Theorem passed_test_drains_scratch (E : env) (self : TestCase.t)
    (program : path) (copyback : bool) (w : world) (opts : list string) :
  let args := TestCase.command E self program ++ opts in
  let proc := (subprocess_run E args (fs w)).1 in
  let m1 := (subprocess_run E args (fs w)).2 in
  has_magic (path_str (WORK_DIR E)) = false ->
  argv (TestCase.options self) = Some opts ->
  no_slash (name program) = true ->
  results_ready m1 (TestCase.test_results_dir self) ->
  returncode proc = 0 ->
  flat m1 (WORK_DIR E) ->
  (copyback = true ->
     isfile m1 (TestCase.input self) = true
     ∧ isfile m1 (TestCase.scratch_output E self) = true
     ∧ dirname (TestCase.input self) ≠ TestCase.test_results_dir self
     ∧ dirname (TestCase.scratch_output E self) ≠ TestCase.test_results_dir self) ->
  ∃ w',
    TestCase.run E self program copyback w = Ok self w'
    ∧ ∀ x, hidden x = false -> fs w' !! (WORK_DIR E ++ [x]) = None.
Proof.
  intros args proc m1 _ Hargv Hprog Hready Hrc Hflat Hcopy.
  destruct (TestCase_run_passed E self program copyback w opts
              Hargv Hprog Hready Hrc Hflat Hcopy) as (w' & Hrun & Hdr & _).
  exists w'. split; [exact Hrun|]. exact Hdr.
Qed.

(** X11. The drain removes nothing else: when the path of the scratch
    directory has no character that [glob] reads as a pattern, then after a
    test whose program returned 0 every regular file the program left
    outside the scratch directory is still a regular file, and so is every
    file in the scratch directory whose name starts with a dot. *)
Theorem passed_test_keeps_other_files (E : env) (self : TestCase.t)
    (program : path) (copyback : bool) (w : world) (opts : list string)
    (q : path) :
  let args := TestCase.command E self program ++ opts in
  let proc := (subprocess_run E args (fs w)).1 in
  let m1 := (subprocess_run E args (fs w)).2 in
  has_magic (path_str (WORK_DIR E)) = false ->
  argv (TestCase.options self) = Some opts ->
  no_slash (name program) = true ->
  results_ready m1 (TestCase.test_results_dir self) ->
  returncode proc = 0 ->
  flat m1 (WORK_DIR E) ->
  (copyback = true ->
     isfile m1 (TestCase.input self) = true
     ∧ isfile m1 (TestCase.scratch_output E self) = true
     ∧ dirname (TestCase.input self) ≠ TestCase.test_results_dir self
     ∧ dirname (TestCase.scratch_output E self) ≠ TestCase.test_results_dir self) ->
  isfile m1 q = true ->
  dirname q ≠ WORK_DIR E ∨ hidden (name q) = true ->
  ∃ w',
    TestCase.run E self program copyback w = Ok self w'
    ∧ isfile (fs w') q = true.
Proof.
  intros args proc m1 _ Hargv Hprog Hready Hrc Hflat Hcopy Hq Hout.
  destruct (TestCase_run_passed E self program copyback w opts
              Hargv Hprog Hready Hrc Hflat Hcopy) as (w' & Hrun & _ & Hkeep).
  exists w'. split; [exact Hrun|]. by apply Hkeep.
Qed.

Lemma for_each_remove_dir (l : list path) :
  NoDup l -> ∀ w,
    (∀ p, p ∈ l -> is_Some (fs w !! p)) ->
    (∃ p, p ∈ l ∧ fs w !! p = Some Dir) ->
    ∃ w', for_each os_remove l w = Raise IsADirectoryError w'
      ∧ ∃ removed, trace w' = trace w ++ map ERemove removed.
Proof.
  induction 1 as [|p l Hp Hnd IH]; intros w Hall (p0 & Hin & Hdir).
  - by apply elem_of_nil in Hin.
  - simpl. destruct (Hall p) as [n Hn]; [left|].
    destruct n as [data|].
    + rewrite (bind_Ok _ _ _ _ _ (os_remove_file p data w Hn)).
      assert (p0 ≠ p) as Hne by (intros ->; congruence).
      apply elem_of_cons in Hin as [?|Hin]; [done|].
      destruct (IH (World (delete p (fs w)) (trace w ++ [ERemove p])))
        as (w' & Hrun & removed & Htr).
      * intros q Hq. simpl. rewrite lookup_delete_ne.
        -- apply Hall. by right.
        -- intros ->. done.
      * exists p0. split; [done|]. simpl. by rewrite lookup_delete_ne.
      * exists w'. split; [done|]. exists (p :: removed).
        rewrite Htr. simpl. by rewrite <- app_assoc.
    + exists w. split.
      * unfold bind, os_remove, bind, get_fs, raise. simpl. by rewrite Hn.
      * exists []. simpl. by rewrite app_nil_r.
Qed.

(** X12. A directory the program leaves in the scratch directory, under a
    name that does not start with a dot, breaks a test that would pass
    (the path of the scratch directory having no character that [glob]
    reads as a pattern): [TestCase.run] logs the PASS line and then raises
    [IsADirectoryError] from the drain instead of returning. *)
Theorem directory_in_scratch_breaks_drain (E : env) (self : TestCase.t)
    (program : path) (copyback : bool) (w : world) (opts : list string)
    (x : string) :
  let args := TestCase.command E self program ++ opts in
  let proc := (subprocess_run E args (fs w)).1 in
  let m1 := (subprocess_run E args (fs w)).2 in
  has_magic (path_str (WORK_DIR E)) = false ->
  TestCase.status self = true ->
  argv (TestCase.options self) = Some opts ->
  no_slash (name program) = true ->
  results_ready m1 (TestCase.test_results_dir self) ->
  returncode proc = 0 ->
  (copyback = true ->
     isfile m1 (TestCase.input self) = true
     ∧ isfile m1 (TestCase.scratch_output E self) = true
     ∧ dirname (TestCase.input self) ≠ TestCase.test_results_dir self
     ∧ dirname (TestCase.scratch_output E self) ≠ TestCase.test_results_dir self) ->
  hidden x = false ->
  m1 !! (WORK_DIR E ++ [x]) = Some Dir ->
  ∃ w',
    TestCase.run E self program copyback w = Raise IsADirectoryError w'
    ∧ ELog (TestCase.logger self) INFO (TestCase.pass_line self "") ∈ trace w'.
Proof.
  intros args proc m1 _ Hst Hargv Hprog Hready Hrc Hcopy Hx Hdir.
  destruct (TestCase_run_to_drain E self program copyback w opts
              Hargv Hprog Hready Hrc Hcopy) as (w5 & Hg & Hlog & Hrun).
  fold m1 in Hg. rewrite Hrun.
  assert (fs w5 !! (WORK_DIR E ++ [x]) = Some Dir) as Hdir5 by (by apply Hg).
  destruct (for_each_remove_dir _ (NoDup_glob_star (fs w5) (WORK_DIR E)) w5)
    as (w' & Hloop & removed & Htr).
  - intros p Hp. by apply elem_of_glob_star in Hp as (? & _).
  - exists (WORK_DIR E ++ [x]). split; [|done]. apply elem_of_glob_star.
    rewrite Hdir5, dirname_snoc, name_snoc. repeat split; eauto.
    by destruct (WORK_DIR E).
  - exists w'. split.
    + unfold bind, TestCase.drain, bind, get_fs. by rewrite Hloop.
    + rewrite Htr. apply elem_of_app. left. by apply Hlog.
Qed.

(** ** What construction records *)

Lemma emits_only_ret {A} (P : event -> Prop) (a : A) : emits_only P (ret a).
Proof. intros w. exists []. simpl. by rewrite app_nil_r. Qed.

Lemma emits_only_raise {A} (P : event -> Prop) (e : exn) :
  emits_only P (raise (A := A) e).
Proof. intros w. exists []. simpl. by rewrite app_nil_r. Qed.

Lemma emits_only_emit (P : event -> Prop) (e : event) :
  P e -> emits_only P (emit e).
Proof. intros H w. exists [e]. simpl. split; [done|]. by constructor. Qed.

Lemma emits_only_get_fs (P : event -> Prop) : emits_only P get_fs.
Proof. intros w. exists []. simpl. by rewrite app_nil_r. Qed.

Lemma emits_only_put_fs (P : event -> Prop) (m : gmap path node) :
  emits_only P (put_fs m).
Proof. intros w. exists []. simpl. by rewrite app_nil_r. Qed.

Lemma emits_only_bind {A B} (P : event -> Prop) (m : M A) (k : A -> M B) :
  emits_only P m -> (∀ a, emits_only P (k a)) -> emits_only P (bind m k).
Proof.
  intros Hm Hk w. destruct (Hm w) as (l1 & Htr1 & Hl1). unfold bind.
  destruct (m w) as [a w1|e w1]; simpl in *.
  - destruct (Hk a w1) as (l2 & Htr2 & Hl2). exists (l1 ++ l2).
    rewrite Htr2, Htr1, app_assoc. split; [done|]. by apply Forall_app.
  - by exists l1.
Qed.

Lemma emits_only_when (P : event -> Prop) (b : bool) (m : M unit) :
  emits_only P m -> emits_only P (when b m).
Proof. intros H. destruct b; [done|apply emits_only_ret]. Qed.

Lemma emits_only_impl {A} (P Q : event -> Prop) (m : M A) :
  (∀ e, P e -> Q e) -> emits_only P m -> emits_only Q m.
Proof.
  intros HPQ Hm w. destruct (Hm w) as (l & Htr & Hl). exists l.
  split; [done|]. by eapply Forall_impl.
Qed.

Ltac emits :=
  repeat first
    [ apply emits_only_ret | apply emits_only_raise | apply emits_only_get_fs
    | apply emits_only_put_fs | apply emits_only_when
    | apply emits_only_emit; exact I
    | apply emits_only_bind; [|intros ?]
    | match goal with
      | |- emits_only _ (match ?x with _ => _ end) => destruct x
      | |- emits_only _ (if ?x then _ else _) => destruct x
      end ].

Lemma emits_only_cleandir (dir : path) (quiet : bool) :
  emits_only workspace_event (cleandir dir quiet).
Proof.
  unfold cleandir, is_file, is_dir, toplevel_warning, os_remove, shutil_rmtree,
    os_mkdir.
  emits.
Qed.

Lemma emits_only_mkdir (dir : path) (quiet : bool) :
  emits_only workspace_event (mkdir dir quiet).
Proof.
  unfold mkdir, is_file, is_dir, toplevel_warning, os_remove, os_mkdir.
  emits.
Qed.

Lemma emits_only_open_append (P : event -> Prop) (p : path) :
  emits_only P (open_append p).
Proof. unfold open_append. emits. Qed.

Lemma emits_only_TestCase_init (suite_name test_name : string) (top : path)
    (input output : path) (opts : list value) :
  emits_only workspace_event
    (TestCase.init suite_name test_name top input output opts).
Proof.
  unfold TestCase.init, TestCase.clean, TestCase.configure_logger.
  apply emits_only_bind; [apply emits_only_cleandir|intros ?].
  apply emits_only_bind; [apply emits_only_open_append|intros ?].
  apply emits_only_ret.
Qed.

Lemma workspace_no_launch (e : event) : workspace_event e -> no_launch e.
Proof. by destruct e. Qed.

Lemma emits_only_suite_fail_msg (self : TestSuite.t) (msg : string) :
  emits_only no_launch (TestSuite.suite_fail_msg self msg).
Proof. unfold TestSuite.suite_fail_msg. emits. Qed.

Lemma emits_only_configure_each (E : env) (opts : list value)
    (testcases : list (string * gmap string value)) (self : TestSuite.t) :
  emits_only no_launch (TestSuite.configure_each E self opts testcases).
Proof.
  revert self. induction testcases as [|[n c] rest IH]; intros self; simpl.
  - apply emits_only_ret.
  - destruct (c !! "input") as [[i|b]|].
    + apply emits_only_bind; [|intros ?; apply IH].
      eapply emits_only_impl; [apply workspace_no_launch|].
      apply emits_only_TestCase_init.
    + apply emits_only_raise.
    + apply emits_only_bind; [apply emits_only_suite_fail_msg|intros ?].
      apply emits_only_ret.
Qed.

Lemma emits_only_clean (E : env) (self : TestSuite.t) :
  emits_only workspace_event (TestSuite.clean E self).
Proof.
  unfold TestSuite.clean.
  apply emits_only_bind; [apply emits_only_cleandir|intros ?].
  apply emits_only_bind; [apply emits_only_mkdir|intros ?].
  apply emits_only_cleandir.
Qed.

Lemma emits_only_configure_tests (E : env) (self : TestSuite.t) :
  emits_only no_launch (TestSuite.configure_tests E self).
Proof.
  unfold TestSuite.configure_tests.
  apply emits_only_bind; [unfold is_file; emits|intros f].
  destruct (negb f).
  - apply emits_only_bind; [apply emits_only_suite_fail_msg|intros ?].
    apply emits_only_ret.
  - apply emits_only_bind; [unfold read_bytes; emits|intros data].
    destruct (tomllib_load E data); [|apply emits_only_raise].
    apply emits_only_configure_each.
Qed.

Lemma emits_only_TestSuite_init (E : env) (name : string) (top : path) :
  emits_only no_launch (TestSuite.init E name top).
Proof.
  unfold TestSuite.init.
  apply emits_only_bind; [|intros ?].
  { eapply emits_only_impl; [apply workspace_no_launch|apply emits_only_clean]. }
  apply emits_only_bind; [apply emits_only_open_append|intros ?].
  apply emits_only_configure_tests.
Qed.

Lemma launches_no_launch (l : list event) : Forall no_launch l -> launches l = [].
Proof. induction 1 as [|e l He Hl IH]; [done|]. by destruct e. Qed.

(** X13. Constructing suites never launches the target program, whether
    the constructions return or one of them raises: in [main] every launch
    comes after the last suite has been constructed. *)
Theorem construction_launches_nothing (E : env) (suite_names : list string)
    (results_dir : path) (w : world) :
  launches (trace (world_of (construct_all E suite_names results_dir w)))
  = launches (trace w).
Proof.
  assert (emits_only no_launch (construct_all E suite_names results_dir)) as H.
  { induction suite_names as [|n rest IH]; simpl; [apply emits_only_ret|].
    apply emits_only_bind; [apply emits_only_TestSuite_init|intros ?].
    apply emits_only_bind; [apply IH|intros ?]. apply emits_only_ret. }
  destruct (H w) as (l & -> & Hl).
  by rewrite launches_app, (launches_no_launch l Hl), app_nil_r.
Qed.

(** ** More on suites *)

(** X14. [TestSuite.run] guards the loop twice: when the target program is
    not a regular file it logs the error and the FAIL line, and when the
    status of the suite is already false it does nothing at all.  Either
    way no test is launched, the suite comes back as it was (status
    included) and no path changes but log files, which gain the two lines
    of the first case; in the second case nothing changes at all. *)
Theorem guarded_run_launches_nothing (E : env) (self : TestSuite.t)
    (program : path) (copyback : bool) (w : world) :
  isfile (fs w) program = false ∨ TestSuite.status self = false ->
  ∃ w',
    TestSuite.run E self program copyback w = Ok self w'
    ∧ launches (trace w') = launches (trace w)
    ∧ trace w' =
        trace w ++
          (if isfile (fs w) program then []
           else [ELog (TestSuite.logger self) ERROR
                   (TestSuite.not_executable_msg program);
                 ELog (TestSuite.logger self) INFO (TestSuite.fail_line self)])
    ∧ (∀ q, is_log q = false -> fs w' !! q = fs w !! q)
    ∧ (isfile (fs w) program = true -> w' = w).
Proof.
  intros H. unfold TestSuite.run.
  rewrite (bind_Ok _ _ _ _ _ (is_file_eq program w)).
  destruct (isfile (fs w) program) eqn:Hf; simpl.
  - destruct H as [?|Hst]; [done|]. rewrite Hst. simpl. unfold ret.
    exists w. by rewrite app_nil_r.
  - unfold bind, TestSuite.suite_fail_msg, bind, emit, ret. simpl.
    eexists. split; [done|]. simpl.
    rewrite <- app_assoc, launches_app. simpl.
    by rewrite app_nil_r.
Qed.

Lemma emits_only_launch (P : event -> Prop) (E : env) (head : list string)
    (options : list value) :
  (∀ args, P (EExec args)) -> emits_only P (launch E head options).
Proof.
  intros HP. unfold launch.
  destruct (argv options) as [opts|]; [|apply emits_only_raise].
  intros w. exists [EExec (head ++ opts)]. simpl. split; [done|].
  constructor; [apply HP|constructor].
Qed.

Lemma emits_only_for_each {A} (P : event -> Prop) (f : A -> M unit)
    (l : list A) :
  (∀ a, emits_only P (f a)) -> emits_only P (for_each f l).
Proof.
  intros Hf. induction l as [|a l IH]; simpl; [apply emits_only_ret|].
  apply emits_only_bind; [apply Hf|intros ?; apply IH].
Qed.

Lemma emits_only_TestCase_run (E : env) (self : TestCase.t) (program : path)
    (copyback : bool) :
  emits_only (fun _ => True) (TestCase.run E self program copyback).
Proof.
  unfold TestCase.run.
  apply emits_only_bind; [by apply emits_only_launch|intros proc].
  apply emits_only_bind; [unfold write_bytes; emits|intros ?].
  apply emits_only_bind; [unfold write_bytes; emits|intros ?].
  destruct (negb (returncode proc =? 0)).
  { unfold TestCase.test_fail. emits. }
  apply emits_only_bind; [unfold TestCase.test_pass; emits|intros ?].
  apply emits_only_bind; [unfold shutil_copy; emits|intros ?].
  apply emits_only_bind; [|intros ?; apply emits_only_ret].
  unfold TestCase.drain.
  apply emits_only_bind; [apply emits_only_get_fs|intros m].
  apply emits_only_for_each. intros p. unfold os_remove. emits.
Qed.

Lemma emits_only_run_each (E : env) (todo : list TestCase.t) (program : path)
    (copyback : bool) (st : bool) :
  emits_only (fun _ => True) (TestSuite.run_each E todo program copyback st).
Proof.
  revert st. induction todo as [|test rest IH]; intros st; simpl.
  - apply emits_only_ret.
  - apply emits_only_bind; [apply emits_only_TestCase_run|intros test'].
    apply emits_only_bind; [apply IH|intros r]. apply emits_only_ret.
Qed.

(** What a computation that returns has recorded comes after what was
    recorded before. *)
Lemma Ok_extends {A} (P : event -> Prop) (m : M A) (w w' : world) (a : A) :
  emits_only P m -> m w = Ok a w' -> ∃ l, trace w' = trace w ++ l.
Proof.
  intros H Hm. destruct (H w) as (l & Htr & _). rewrite Hm in Htr.
  by exists l.
Qed.

Lemma configure_each_kept (E : env) (opts : list value)
    (testcases : list (string * gmap string value)) :
  ∀ self w self' w',
    TestSuite.configure_each E self opts testcases w = Ok self' w' ->
    TestSuite.suite_name self' = TestSuite.suite_name self
    ∧ TestSuite.status self' = TestSuite.status self.
Proof.
  induction testcases as [|[n c] rest IH]; intros self w self' w' H; simpl in H.
  - unfold ret in H. by injection H as <- _.
  - destruct (c !! "input") as [[i|b]|]; [|done|].
    + apply bind_inv in H as (test & w1 & _ & H). by apply IH in H.
    + apply bind_inv in H as ([] & w1 & _ & H). unfold ret in H.
      by injection H as <- _.
Qed.

(** A suite is constructed under its name, with status true. *)
Lemma init_kept (E : env) (name : string) (top : path) (w : world)
    (self : TestSuite.t) (w' : world) :
  TestSuite.init E name top w = Ok self w' ->
  TestSuite.suite_name self = name ∧ TestSuite.status self = true.
Proof.
  unfold TestSuite.init. intros H.
  apply bind_inv in H as ([] & w1 & _ & H).
  apply bind_inv in H as ([] & w2 & _ & H).
  unfold TestSuite.configure_tests in H.
  apply bind_inv in H as (f & w3 & _ & H). destruct (negb f).
  - apply bind_inv in H as ([] & w4 & _ & H). unfold ret in H.
    by injection H as <- _.
  - apply bind_inv in H as (data & w4 & _ & H).
    destruct (tomllib_load E data); [|done].
    by apply configure_each_kept in H.
Qed.

(** A suite whose status is true reports when it is run: the last thing
    [TestSuite.run] records is the summary line of the suite. *)
Lemma TestSuite_run_reports (E : env) (self : TestSuite.t) (program : path)
    (copyback : bool) (w : world) (self' : TestSuite.t) (w' : world) :
  TestSuite.status self = true ->
  TestSuite.run E self program copyback w = Ok self' w' ->
  TestSuite.suite_name self' = TestSuite.suite_name self
  ∧ ∃ seg e, trace w' = trace w ++ seg ∧ last seg = Some e ∧ summary_of self e.
Proof.
  intros Hst. unfold TestSuite.run.
  rewrite (bind_Ok _ _ _ _ _ (is_file_eq program w)).
  destruct (negb (isfile (fs w) program)).
  - unfold bind, TestSuite.suite_fail_msg, bind, emit, ret. simpl.
    intros H. injection H as <- <-. split; [done|]. simpl.
    eexists [_; _], _. rewrite <- app_assoc. split; [done|].
    split; [done|]. by right.
  - rewrite Hst. simpl. intros H.
    apply bind_inv in H as (r & w2 & Hloop & H).
    destruct (Ok_extends _ _ _ _ _ (emits_only_run_each E _ _ _ _) Hloop)
      as (l & Hl).
    apply bind_inv in H as ([] & w3 & Hlog & H). unfold ret in H.
    injection H as <- <-. split; [done|]. simpl in Hlog.
    destruct r.2; simpl in Hlog.
    + unfold TestSuite.suite_pass, emit in Hlog. injection Hlog as <-.
      simpl. eexists (l ++ [_]), _. rewrite Hl, <- app_assoc.
      split; [done|]. split; [apply last_snoc|]. by left.
    + unfold TestSuite.suite_fail, emit in Hlog. injection Hlog as <-.
      simpl. eexists (l ++ [_]), _. rewrite Hl, <- app_assoc.
      split; [done|]. split; [apply last_snoc|]. by right.
Qed.

(** X15. [main] runs every suite it was given, in the order given, to its
    end: when it returns, what was recorded after the construction of the
    suites falls into one segment for each name (a name given twice gives
    two), and the segment of a suite ends with the summary line of that
    suite, or with its FAIL line after the error that the program is not
    executable.  No suite is dropped or reordered because an earlier one
    failed. *)
Theorem main_runs_every_suite (E : env) (program results_dir : path)
    (suite_names : list string) (copyback : bool) (w : world)
    (suites : list TestSuite.t) (w' : world) :
  main E program results_dir suite_names copyback w = Ok suites w' ->
  map TestSuite.suite_name suites = suite_names
  ∧ ∃ built w1 segments,
      construct_all E suite_names results_dir w = Ok built w1
      ∧ trace w' = trace w1 ++ List.concat segments
      ∧ Forall2 (fun suite segment =>
                   ∃ e, last segment = Some e ∧ summary_of suite e)
                suites segments.
Proof.
  unfold main. intros H. apply bind_inv in H as (built & w1 & Hbuilt & H).
  assert (map TestSuite.suite_name built = suite_names
          ∧ Forall (fun s => TestSuite.status s = true) built) as [<- Hsts].
  { clear H. revert w built w1 Hbuilt.
    induction suite_names as [|n rest IH]; intros w built w1 H; simpl in H.
    - unfold ret in H. by injection H as <- _.
    - apply bind_inv in H as (s & w2 & Hs & H).
      apply bind_inv in H as (ss & w3 & Hss & H). unfold ret in H.
      injection H as <- _. simpl.
      destruct (init_kept _ _ _ _ _ _ Hs) as [-> Hst].
      destruct (IH _ _ _ Hss) as [-> Hrest]. split; [done|].
      by constructor. }
  assert (map TestSuite.suite_name suites = map TestSuite.suite_name built
          ∧ ∃ segments,
              trace w' = trace w1 ++ List.concat segments
              ∧ Forall2 (fun suite segment =>
                           ∃ e, last segment = Some e ∧ summary_of suite e)
                        suites segments) as [Hnames (segments & Htr & Hsegs)].
  { clear Hbuilt. revert w1 suites w' H.
    induction Hsts as [|s rest Hst Hsts IH]; intros w1 suites w' H; simpl in H.
    - unfold ret in H. injection H as <- <-. split; [done|].
      exists []. simpl. rewrite app_nil_r. split; [done|constructor].
    - apply bind_inv in H as (s' & w2 & Hs & H).
      apply bind_inv in H as (ss & w3 & Hss & H). unfold ret in H.
      injection H as <- <-.
      destruct (TestSuite_run_reports _ _ _ _ _ _ _ Hst Hs)
        as (Hname & seg & e & Hseg & Hlast & Hsum).
      destruct (IH _ _ _ Hss) as (Hnames & segments & Htr & Hsegs).
      split; [simpl; by rewrite Hname, Hnames|].
      exists (seg :: segments). simpl. rewrite Htr, Hseg, <- app_assoc.
      split; [done|]. constructor; [|done]. exists e. split; [done|].
      unfold summary_of, TestSuite.logger, TestSuite.pass_line,
        TestSuite.fail_line in *. by rewrite Hname. }
  split; [done|]. by exists built, w1, segments.
Qed.






Lemma configure_each_not_a_string (E : env) (opts : list value)
    (pre : list (string * gmap string value)) (testcase : string)
    (content : gmap string value) (b : bool)
    (post : list (string * gmap string value)) :
  content !! "input" = Some (VBool b) ->
  forallb (fun entry => plain entry.1 && has_input entry.2) pre = true ->
  ∀ (self : TestSuite.t) (w : world),
    wf_fs (fs w) ->
    clean_path (TestSuite.top_results_dir self) = true ->
    plain (TestSuite.suite_name self) = true ->
    fs w !! (TestSuite.top_results_dir self ++ [TestSuite.suite_name self])
      = Some Dir ->
    ∃ w',
      TestSuite.configure_each E self opts (pre ++ (testcase, content) :: post) w
        = Raise TypeError w'.
Proof.
  intros Hbool. induction pre as [|[n c] pre IH]; intros Hpre self w Hwf Htop Hs Hd.
  - simpl. rewrite Hbool. by exists w.
  - simpl in Hpre. apply andb_prop in Hpre as [Hnc Hpre].
    apply andb_prop in Hnc as [Hn Hc]. simpl in Hn, Hc.
    unfold has_input in Hc.
    destruct (c !! "input") as [[i|]|] eqn:Hi; try done.
    change ((((n, c) :: pre) ++ (testcase, content) :: post))
      with ((n, c) :: (pre ++ (testcase, content) :: post)).
    cbn [TestSuite.configure_each]. rewrite Hi.
    destruct (TestCase_init_ok (TestSuite.suite_name self) n
                (TestSuite.top_results_dir self) (pjoin (TEST_DIR E) i)
                (parts (stem (pjoin (TEST_DIR E) i) +:+ ".out")) opts w)
      as (w1 & evs1 & Hinit & Hwf1 & Hd1 & Htr1); try done.
    rewrite (bind_Ok _ _ _ _ _ Hinit).
    set (test := TestCase.mk _ _ _ _ _ _ _ _ _).
    by apply (IH Hpre (TestSuite.set_tests (TestSuite.tests self ++ [test]) self) w1).
Qed.

(** X19. An [input] that is not a string (a boolean) is no missing input:
    [configure_tests] raises [TypeError] at that entry instead of logging
    an error and returning, so the construction of the suite fails as a
    whole. *)
Theorem input_must_be_a_string (E : env) (self : TestSuite.t)
    (data : bytes) (c : config)
    (pre : list (string * gmap string value)) (testcase : string)
    (content : gmap string value) (b : bool)
    (post : list (string * gmap string value)) (w : world) :
  fs w !! TestSuite.config_file E self = Some (File data) ->
  tomllib_load E data = Some c ->
  cfg_test c = Some (pre ++ (testcase, content) :: post) ->
  forallb (fun entry => plain entry.1 && has_input entry.2) pre = true ->
  content !! "input" = Some (VBool b) ->
  wf_fs (fs w) ->
  clean_path (TestSuite.top_results_dir self) = true ->
  plain (TestSuite.suite_name self) = true ->
  fs w !! (TestSuite.top_results_dir self ++ [TestSuite.suite_name self])
    = Some Dir ->
  ∃ w', TestSuite.configure_tests E self w = Raise TypeError w'.
Proof.
  intros Hfile Hload Htests Hpre Hbool Hwf Htop Hs Hd.
  assert (read_bytes (TestSuite.config_file E self) w = Ok data w) as Hread.
  { unfold read_bytes, bind, get_fs, ret. simpl. by rewrite Hfile. }
  assert (isfile (fs w) (TestSuite.config_file E self) = true) as Hf.
  { apply isfile_true. eauto. }
  unfold TestSuite.configure_tests.
  rewrite (bind_Ok _ _ _ _ _ (is_file_eq _ w)), Hf. cbn [negb].
  rewrite (bind_Ok _ _ _ _ _ Hread), Hload, Htests.
  by apply (configure_each_not_a_string E _ pre testcase content b post).
Qed.

Lemma split_slash_no_slash (s c : string) :
  c ∈ split_slash s -> no_slash c = true.
Proof.
  revert c. induction s as [|a s IH]; intros c Hc; simpl in Hc.
  - apply list_elem_of_singleton in Hc. by subst.
  - destruct (Ascii.eqb a "/") eqn:Ha.
    + apply elem_of_cons in Hc as [->|Hc]; [done|]. by apply IH.
    + pose proof (split_slash_nonempty s) as Hne.
      destruct (split_slash s) as [|h t]; [done|].
      apply elem_of_cons in Hc as [->|Hc].
      * simpl. rewrite Ha. simpl. apply IH. left.
      * apply IH. by right.
Qed.

Lemma parts_no_slash (s c : string) : c ∈ parts s -> no_slash c = true.
Proof.
  unfold parts. rewrite list_elem_of_In, filter_In, <- list_elem_of_In.
  intros [Hc _]. by apply (split_slash_no_slash s).
Qed.

Lemma name_no_slash (p : path) :
  Forall (fun c => no_slash c = true) p -> no_slash (name p) = true.
Proof.
  unfold name. induction 1 as [|c p Hc Hp IH]; [done|].
  destruct p; [done|]. exact IH.
Qed.

(** X20. Whatever string an entry gives as [input], the output of its test
    is the single name [<stem>.out], so the file the program is to write
    lies directly in the scratch directory: directories in the input path
    are not carried over. *)
Theorem output_lies_in_scratch (E : env) (self : TestSuite.t)
    (opts : list value) (entry : string * gmap string value) :
  Forall (fun c => no_slash c = true) (CWD E) ->
  let test := the_test E self opts entry in
  TestCase.output test = [stem (TestCase.input test) +:+ ".out"]
  ∧ TestCase.scratch_output E test =
      WORK_DIR E ++ [stem (TestCase.input test) +:+ ".out"]
  ∧ dirname (TestCase.scratch_output E test) = WORK_DIR E.
Proof.
  intros Hcwd test.
  assert (Forall (fun c => no_slash c = true) (TestCase.input test)) as Hin.
  { unfold test, the_test. cbn [TestCase.input]. unfold pjoin at 1.
    assert (Forall (fun c => no_slash c = true)
                   (parts (declared_input entry.2))) as Hparts.
    { apply Forall_forall. intros c Hc.
      by apply (parts_no_slash (declared_input entry.2) c). }
    destruct (is_absolute _); [done|]. apply Forall_app. split; [|done].
    unfold TEST_DIR, pjoin. simpl. apply Forall_app. split; [done|].
    by repeat constructor. }
  assert (TestCase.output test = [stem (TestCase.input test) +:+ ".out"]) as Hout.
  { unfold test, the_test. cbn [TestCase.output TestCase.input].
    apply parts_plain, plain_with_suffix; [|done|simpl; lia].
    by apply no_slash_stem, name_no_slash. }
  split; [done|]. unfold TestCase.scratch_output. rewrite Hout.
  split; [done|]. apply dirname_snoc.
Qed.

(** * The further properties at work in the concrete scenario *)

Lemma strip_color_drops_palette_witness :
  strip_color ("t1 [" +:+ Color.FAIL +:+ "FAIL") = "t1 [" +:+ strip_color "FAIL".
Proof.
  apply (strip_color_drops_palette "t1 [" Color.FAIL "FAIL"); by_computation.
Defined.

Lemma console_keeps_colours_by_order_witness :
  callHandlers [StreamHandler; FileHandler]
    {| levelno := INFO; msg := TestCase.fail_line demo_test "late" |} =
    [(StreamHandler, TestCase.fail_line demo_test "late");
     (FileHandler, "t1 [FAIL] late")]
  ∧ callHandlers [FileHandler; StreamHandler]
      {| levelno := INFO; msg := TestCase.fail_line demo_test "late" |} =
    [(FileHandler, "t1 [FAIL] late"); (StreamHandler, "t1 [FAIL] late")].
Proof.
  apply (console_keeps_colours_by_order demo_test "late"); by_computation.
Defined.


Lemma no_directory_without_parent_witness :
  cleandir ["nowhere"; "x"] false demo_world = Raise FileNotFoundError demo_world
  ∧ mkdir ["nowhere"; "x"] false demo_world = Raise FileNotFoundError demo_world.
Proof.
  pose proof (no_directory_without_parent ["nowhere"; "x"] false demo_world)
    as H.
  assert (isfile (fs demo_world) (dirname ["nowhere"; "x"]) = false) as Hf
    by by_computation.
  cbv zeta in H. rewrite Hf in H. apply H; by_computation.
Defined.

Lemma mkdir_after_success_witness :
  mkdir ["r"] false (world_of (cleandir ["r"] true demo_world))
  = Ok tt (world_of (cleandir ["r"] true demo_world)).
Proof.
  apply (mkdir_after_success ["r"] true false demo_world).
  left. by_computation.
Defined.

Lemma string_option_counts_when_not_empty_witness :
  collect_options {["option" := VStr "false"]} =
    (if String.eqb "false" "" then [] else [VStr "--option"])
    ++ collect_options (delete "option" {["option" := VStr "false"]}).
Proof.
  apply (string_option_counts_when_not_empty {["option" := VStr "false"]} "false").
  by_computation.
Defined.

Lemma boolean_parameter_stops_run_witness :
  TestCase.run (demo_env 0) demo_typed_test demo_program false
    (demo_constructed "s") = Raise TypeError (demo_constructed "s").
Proof.
  apply (boolean_parameter_stops_run (demo_env 0) demo_typed_test
           {["parameter" := VBool true]} true); by_computation.
Defined.

Lemma failed_test_writes_streams_only_witness :
  ∃ w',
    TestCase.run (demo_env 1) demo_test demo_program false (demo_constructed "s")
      = Ok (TestCase.set_status false demo_test) w'
    ∧ fs w' !! ["r"; "s"; "t1"; "prog.stdout"] = Some (File (bytes_of "Done!"))
    ∧ fs w' !! ["r"; "s"; "t1"; "prog.stderr"] = None
    ∧ fs w' !! ["h"; "__workdir"; "a.out"] = Some (File (bytes_of "hello")).
Proof.
  destruct (failed_test_writes_streams_only (demo_env 1) demo_test demo_program
              false (demo_constructed "s") ["--option"])
    as (w' & Hrun & Hfs & _ & _).
  - by_computation.
  - by_computation.
  - by_computation.
  - by_computation.
  - exists w'. split; [exact Hrun|].
    repeat split; (etransitivity; [apply Hfs; by_computation|by_computation]).
Defined.

Lemma passed_test_drains_scratch_witness :
  ∃ w',
    TestCase.run (demo_env 0) demo_test demo_program true (demo_constructed "s")
      = Ok demo_test w'
    ∧ fs w' !! ["h"; "__workdir"; "a.out"] = None.
Proof.
  destruct (passed_test_drains_scratch (demo_env 0) demo_test demo_program
              true (demo_constructed "s") ["--option"])
    as (w' & Hrun & Hdr).
  - by_computation.
  - by_computation.
  - by_computation.
  - by_computation.
  - by_computation.
  - by_computation.
  - intros _. repeat split; by_computation.
  - exists w'. split; [exact Hrun|]. exact (Hdr "a.out" eq_refl).
Defined.

Lemma passed_test_keeps_other_files_witness :
  ∃ w',
    TestCase.run (demo_env 0) demo_test demo_program false demo_hidden_world
      = Ok demo_test w'
    ∧ isfile (fs w') ["h"; "__workdir"; ".keep"] = true.
Proof.
  apply (passed_test_keeps_other_files (demo_env 0) demo_test demo_program
           false demo_hidden_world ["--option"] ["h"; "__workdir"; ".keep"]).
  - by_computation.
  - by_computation.
  - by_computation.
  - by_computation.
  - by_computation.
  - by_computation.
  - discriminate.
  - by_computation.
  - right. by_computation.
Defined.

Lemma directory_in_scratch_breaks_drain_witness :
  ∃ w',
    TestCase.run messy_env demo_test demo_program false (demo_constructed "s")
      = Raise IsADirectoryError w'
    ∧ ELog (TestCase.logger demo_test) INFO (TestCase.pass_line demo_test "")
        ∈ trace w'.
Proof.
  apply (directory_in_scratch_breaks_drain messy_env demo_test demo_program
           false (demo_constructed "s") ["--option"] "tmp").
  - by_computation.
  - by_computation.
  - by_computation.
  - by_computation.
  - by_computation.
  - by_computation.
  - discriminate.
  - by_computation.
  - by_computation.
Defined.

Lemma guarded_run_launches_nothing_witness :
  ∃ w',
    TestSuite.run (demo_env 0) (demo_suite "s") ["h"; "missing.py"] false
      (demo_constructed "s") = Ok (demo_suite "s") w'
    ∧ launches (trace w') = []
    ∧ fs w' !! ["h"; "inputs"; "a.txt"] = Some (File (bytes_of "hello")).
Proof.
  destruct (guarded_run_launches_nothing (demo_env 0) (demo_suite "s")
              ["h"; "missing.py"] false (demo_constructed "s"))
    as (w' & Hrun & Hlaunches & _ & Hfs & _).
  - left. by_computation.
  - exists w'. split; [exact Hrun|]. split.
    + rewrite Hlaunches. by_computation.
    + etransitivity; [apply Hfs; by_computation|by_computation].
Defined.

Lemma main_runs_every_suite_witness :
  map TestSuite.suite_name (value_of [] demo_run) = ["bad"; "nope"; "s"]
  ∧ ∃ built w1 segments,
      construct_all (demo_env 1) ["bad"; "nope"; "s"] ["r"] demo_world
        = Ok built w1
      ∧ trace (world_of demo_run) = trace w1 ++ List.concat segments
      ∧ Forall2 (fun suite segment =>
                   ∃ e, last segment = Some e ∧ summary_of suite e)
                (value_of [] demo_run) segments.
Proof.
  apply (main_runs_every_suite (demo_env 1) demo_program ["r"]
           ["bad"; "nope"; "s"] false demo_world
           (value_of [] demo_run) (world_of demo_run)).
  by_computation.
Defined.




Lemma input_must_be_a_string_witness :
  ∃ w',
    TestSuite.configure_tests typed_env (demo_blank "s") (demo_cleaned "s")
      = Raise TypeError w'.
Proof.
  apply (input_must_be_a_string typed_env (demo_blank "s") (bytes_of "one test")
           (Config None
              (Some [("t1", {["input" := VStr "a.txt"]});
                     ("t2", {["input" := VBool true]})]))
           [("t1", {["input" := VStr "a.txt"]})] "t2"
           {["input" := VBool true]} true []); by_computation.
Defined.

Lemma output_lies_in_scratch_witness :
  TestCase.output
    (the_test (demo_env 0) (demo_blank "s") []
       ("t", {["input" := VStr "deep/er/a.tar.gz"]})) = ["a.tar.out"]
  ∧ TestCase.scratch_output (demo_env 0)
      (the_test (demo_env 0) (demo_blank "s") []
         ("t", {["input" := VStr "deep/er/a.tar.gz"]}))
    = ["h"; "__workdir"; "a.tar.out"].
Proof.
  destruct (output_lies_in_scratch (demo_env 0) (demo_blank "s") []
              ("t", {["input" := VStr "deep/er/a.tar.gz"]}))
    as (Hout & Hscratch & _).
  - by_computation.
  - rewrite Hscratch, Hout. split; by_computation.
Defined.
